(** * StencilConfigManager: a model of [lib/StencilConfigManager.js]

    The configuration manager of the stencil command line tool reads,
    validates, migrates and saves the project configuration.  This file
    embeds the class method by method and states its properties.

    Conventions of the embedding.
    - A JavaScript string is a [string]; each character stands for one code
      unit below 256.
    - A configuration is a JavaScript object: the list of its own fields in
      the order in which the object lists them, with distinct keys, of which
      none is integer-like.  A field named [__proto__] is a field like any
      other, as [JSON.parse] makes it.
    - Paths are those of a POSIX system.
    - Numbers carried by a configuration are integers, printed in decimal.
    - The file system, the process environment and the console form an
      explicit world, threaded through a state-and-exception monad; an
      [async] method is the sequence of its steps, a rejected promise a
      thrown error.
    - The file system is a finite map from paths to files and directories;
      the directory that is to hold a file is taken to exist. *)

From stdpp Require Import gmap strings list pretty.
From Stdlib Require Import Ascii ZArith.

Local Open Scope Z_scope.

(** ** Strings as JavaScript uses them *)

Module Js.

(** [s.startsWith(p)] *)
Fixpoint starts_with (p s : string) : bool :=
  match p, s with
  | EmptyString, _ => true
  | String a p', String b s' => if decide (a = b) then starts_with p' s' else false
  | String _ _, EmptyString => false
  end.

(** [s.includes(p)] *)
Fixpoint includes (p s : string) : bool :=
  starts_with p s ||
  match s with
  | EmptyString => false
  | String _ s' => includes p s'
  end.

(** The scan of [String.prototype.split] for a non-empty separator: [skip]
    counts the characters of a separator occurrence still to be passed,
    [cur] is the piece read so far. *)
Fixpoint split_go (sep s : string) (skip : nat) (cur : string) : list string :=
  match s with
  | EmptyString => [cur]
  | String c s' =>
      match skip with
      | S n => split_go sep s' n cur
      | O =>
          if starts_with sep s
          then cur :: split_go sep s' (String.length sep - 1) ""
          else split_go sep s' 0 (cur +:+ String c "")
      end
  end.

Fixpoint chars (s : string) : list string :=
  match s with
  | EmptyString => []
  | String c s' => String c "" :: chars s'
  end.

(** [s.split(sep)]; an empty separator cuts between all characters. *)
Definition split (sep s : string) : list string :=
  match sep with
  | EmptyString => chars s
  | String _ _ => split_go sep s 0 ""
  end.

(** [parts.join(sep)] *)
Fixpoint join (sep : string) (parts : list string) : string :=
  match parts with
  | [] => ""
  | [p] => p
  | p :: rest => p +:+ sep +:+ join sep rest
  end.

(** The class [\s] of a regular expression, on code units below 256. *)
Definition is_space (c : ascii) : bool :=
  let n := nat_of_ascii c in
  bool_decide (n = 9 ∨ n = 10 ∨ n = 11 ∨ n = 12 ∨ n = 13 ∨ n = 32 ∨ n = 160)%nat.

End Js.

(** ** JavaScript values found in a configuration *)

#[warnings="-register-all"]
Inductive value : Type :=
| VNull
| VBool (b : bool)
| VNum (n : Z)
| VStr (s : string)
| VArr (items : list value)
| VObj (fields : list (string * value)).

Abbreviation object := (list (string * value)).

(** [undefined] is the absence of a value. *)
Definition truthy (v : option value) : bool :=
  match v with
  | None | Some VNull => false
  | Some (VBool b) => b
  | Some (VNum n) => negb (n =? 0)
  | Some (VStr s) => negb (bool_decide (s = ""))
  | Some (VArr _) | Some (VObj _) => true
  end.

(** [o.key] *)
Fixpoint get (key : string) (o : object) : option value :=
  match o with
  | [] => None
  | (k, v) :: rest => if decide (k = key) then Some v else get key rest
  end.

(** [o[key] = v]: an existing field keeps its place, a new one goes last. *)
Fixpoint set (key : string) (v : value) (o : object) : object :=
  match o with
  | [] => [(key, v)]
  | (k, w) :: rest =>
      if decide (k = key) then (k, v) :: rest else (k, w) :: set key v rest
  end.

(** [o[key] = v] on an object that a literal made.  The key [__proto__]
    reaches the accessor of [Object.prototype]: the prototype of [o] is
    changed, or nothing is, and no field is added. *)
Definition assign (key : string) (v : value) (o : object) : object :=
  if decide (key = "__proto__") then o else set key v o.

(** [{ ...a, ...b }]; spreading [null] adds nothing.  A spread defines its
    fields, also one named [__proto__]. *)
Definition entries_of (v : value) : object :=
  match v with
  | VObj fields => fields
  | _ => []
  end.

Definition spread (a b : value) : object :=
  fold_left (fun acc kv => set kv.1 kv.2 acc) (entries_of a ++ entries_of b) [].

(** [String(v)], as a template literal converts its holes. *)
Fixpoint ToString (v : value) : string :=
  match v with
  | VNull => "null"
  | VBool true => "true"
  | VBool false => "false"
  | VNum n => pretty n
  | VStr s => s
  | VArr items =>
      Js.join ","
        (List.map (fun x => match x with VNull => "" | _ => ToString x end) items)
  | VObj _ => "[object Object]"
  end.

(** ** [JSON.stringify(v, null, 2)] *)

Module JSON.

Definition dquote : string := String "034"%char "".
Definition newline : string := String "010"%char "".
Definition gap : string := "  ".

Definition hex_digit (n : nat) : ascii :=
  ascii_of_nat (if decide (n < 10)%nat then 48 + n else 87 + n).

(** One character inside a quoted JSON string. *)
Definition quote_char (c : ascii) : string :=
  let n := nat_of_ascii c in
  if decide (n = 8)%nat then "\b"
  else if decide (n = 9)%nat then "\t"
  else if decide (n = 10)%nat then "\n"
  else if decide (n = 12)%nat then "\f"
  else if decide (n = 13)%nat then "\r"
  else if decide (n = 34)%nat then "\" +:+ dquote
  else if decide (n = 92)%nat then "\\"
  else if decide (n < 32)%nat
       then "\u00" +:+ String (hex_digit (n / 16)) (String (hex_digit (n mod 16)) "")
  else String c "".

Fixpoint quote_chars (s : string) : string :=
  match s with
  | EmptyString => ""
  | String c s' => quote_char c +:+ quote_chars s'
  end.

Definition quote (s : string) : string := dquote +:+ quote_chars s +:+ dquote.

(** The serialisation of a value at the current indentation. *)
Fixpoint serialize (indent : string) (v : value) : string :=
  match v with
  | VNull => "null"
  | VBool true => "true"
  | VBool false => "false"
  | VNum n => pretty n
  | VStr s => quote s
  | VArr items =>
      match items with
      | [] => "[]"
      | _ =>
          let inner := indent +:+ gap in
          "[" +:+ newline +:+ inner +:+
          Js.join ("," +:+ newline +:+ inner) (List.map (serialize inner) items) +:+
          newline +:+ indent +:+ "]"
      end
  | VObj fields =>
      match fields with
      | [] => "{}"
      | _ =>
          let inner := indent +:+ gap in
          "{" +:+ newline +:+ inner +:+
          Js.join ("," +:+ newline +:+ inner)
            (List.map (fun kv : string * value =>
                         let (k, x) := kv in quote k +:+ ": " +:+ serialize inner x)
                      fields) +:+
          newline +:+ indent +:+ "}"
      end
  end.

Definition stringify (v : value) : string := serialize "" v.

End JSON.

(** ** The world: file system, process environment, console *)

Inductive node : Type :=
| File (content : string)
| Dir.

(** What the manager writes to its logger. *)
Inductive message : Type :=
| DeprecatedFileNotice
| ReplacedFileNotice
| ApiHostFallbackNotice.

Record world : Type := World {
  files : gmap string node;
  process_env : gmap string string;
  console : list message
}.

Inductive error : Type :=
| ERR_INVALID_ARG_TYPE
| ENOENT (path : string)
| EISDIR (path : string)
| JsonParseError (path : string)
| PleaseRunInitFirst
| ConfigOutdated.

Inductive outcome (A : Type) : Type :=
| Return (a : A)
| Throw (e : error).
Arguments Return {A} a.
Arguments Throw {A} e.

(** A computation runs in a world and leaves a world, also when it throws. *)
Definition M (A : Type) : Type := world -> outcome A * world.

Definition ret {A} (a : A) : M A := fun w => (Return a, w).
Definition throw {A} (e : error) : M A := fun w => (Throw e, w).
Definition bind {A B} (m : M A) (k : A -> M B) : M B :=
  fun w =>
    match m w with
    | (Return a, w') => k a w'
    | (Throw e, w') => (Throw e, w')
    end.
Definition try_catch {A} (m : M A) (handler : error -> M A) : M A :=
  fun w =>
    match m w with
    | (Return a, w') => (Return a, w')
    | (Throw e, w') => handler e w'
    end.

#[global] Instance M_ret : MRet M := @ret.
#[global] Instance M_bind : MBind M := fun A B k m => bind m k.

Definition with_files (f : gmap string node) (w : world) : world :=
  World f (process_env w) (console w).

(** *** The [fs] module

    A path argument may be [undefined] ([None]): [existsSync] then answers
    [false], and the other functions throw the error of an argument of the
    wrong type.  A directory cannot be opened, read or written as a file. *)

Module fs.

Definition existsSync (path : option string) : M bool :=
  fun w =>
    match path with
    | None => (Return false, w)
    | Some p => (Return (bool_decide (is_Some (files w !! p))), w)
    end.

(** [fs.openSync(path, 'a')]: the file is created when missing. *)
Definition openSync_a (path : option string) : M unit :=
  fun w =>
    match path with
    | None => (Throw ERR_INVALID_ARG_TYPE, w)
    | Some p =>
        match files w !! p with
        | None => (Return tt, with_files (<[p := File ""]> (files w)) w)
        | Some (File _) => (Return tt, w)
        | Some Dir => (Throw (EISDIR p), w)
        end
    end.

(** [fs.readFileSync(path, 'utf8')] *)
Definition readFileSync (path : option string) : M string :=
  fun w =>
    match path with
    | None => (Throw ERR_INVALID_ARG_TYPE, w)
    | Some p =>
        match files w !! p with
        | None => (Throw (ENOENT p), w)
        | Some (File content) => (Return content, w)
        | Some Dir => (Throw (EISDIR p), w)
        end
    end.

(** [fs.writeFileSync(path, data)] and [fs.promises.writeFile(path, data)] *)
Definition writeFile (path : option string) (data : string) : M unit :=
  fun w =>
    match path with
    | None => (Throw ERR_INVALID_ARG_TYPE, w)
    | Some p =>
        match files w !! p with
        | Some Dir => (Throw (EISDIR p), w)
        | _ => (Return tt, with_files (<[p := File data]> (files w)) w)
        end
    end.

(** [fs.promises.unlink(path)] *)
Definition unlink (path : string) : M unit :=
  fun w =>
    match files w !! path with
    | None => (Throw (ENOENT path), w)
    | Some (File _) => (Return tt, with_files (delete path (files w)) w)
    | Some Dir => (Throw (EISDIR path), w)
    end.

End fs.

(** [logger.log] *)
Definition log (msg : message) : M unit :=
  fun w => (Return tt, World (files w) (process_env w) (console w ++ [msg])).

(** [process.env.NAME] *)
Definition getenv (name : string) : M (option string) :=
  fun w => (Return (process_env w !! name), w).

(** ** The [path] module, on a POSIX system *)

Module Path.

(** The last character of the path is a separator. *)
Fixpoint ends_with_separator (path : string) : bool :=
  match path with
  | EmptyString => false
  | String c EmptyString => bool_decide (c = "/"%char)
  | String _ rest => ends_with_separator rest
  end.

(** The walk of [normalizeString] over the segments between the
    separators; [res] holds the segments kept so far, the last one first.
    An empty segment and [.] are passed over; [..] takes the last kept
    segment away, and is kept itself where nothing is left to take and the
    path may climb above its start. *)
Fixpoint normalizeString (allowAboveRoot : bool) (res segments : list string)
    : list string :=
  match segments with
  | [] => rev res
  | segment :: rest =>
      if decide (segment = "" ∨ segment = ".")
      then normalizeString allowAboveRoot res rest
      else if decide (segment = "..") then
        match res with
        | last :: res' =>
            if decide (last = "..")
            then normalizeString allowAboveRoot
                   (if allowAboveRoot then ".." :: res else res) rest
            else normalizeString allowAboveRoot res' rest
        | [] =>
            normalizeString allowAboveRoot
              (if allowAboveRoot then [".."] else []) rest
        end
      else normalizeString allowAboveRoot (segment :: res) rest
  end.

(** [path.normalize(path)] *)
Definition normalize (path : string) : string :=
  if decide (path = "") then "."
  else
    let isAbsolute := Js.starts_with "/" path in
    let trailingSeparator := ends_with_separator path in
    let normalized :=
      Js.join "/" (normalizeString (negb isAbsolute) [] (Js.split "/" path)) in
    if decide (normalized = "")
    then (if isAbsolute then "/" else if trailingSeparator then "./" else ".")
    else (if isAbsolute then "/" else "") +:+ normalized +:+
         (if trailingSeparator then "/" else "").

(** [path.join(a, b)]: the arguments that are not empty are put together
    with a separator and normalised. *)
Definition join (a b : string) : string :=
  normalize (if decide (a = "") then b
             else if decide (b = "") then a
             else a +:+ "/" +:+ b).

End Path.

(** [path.join(dir, name)] *)
Definition path_join (dir name : string) : string := Path.join dir name.

(** ** The pattern of the environment-file upsert

    The pattern is built from [key]: a negative lookbehind for a [#]
    followed by any number of blanks, then the key, then a lookahead for
    [=].  For a [key] made of word characters, which stand for themselves
    in a pattern, it finds the key, followed by [=], at a position that a
    [#] and blanks do not immediately precede. *)

(** The lookbehind [#\s*], on the text before a position, nearest
    character first. *)
Fixpoint behind_hash (before : string) : bool :=
  match before with
  | EmptyString => false
  | String c rest =>
      if decide (c = "#"%char) then true
      else if Js.is_space c then behind_hash rest
      else false
  end.

Fixpoint key_pattern_from (key before s : string) : bool :=
  (Js.starts_with (key +:+ "=") s && negb (behind_hash before))
  || match s with
     | EmptyString => false
     | String c s' => key_pattern_from key (String c before) s'
     end.

(** [line.match(pattern)] finds a match. *)
Definition key_pattern_matches (key line : string) : bool :=
  key_pattern_from key "" line.

(** [vars.indexOf(target)]: [None] stands for [-1]; [target] is
    [undefined] when [find] found nothing. *)
Fixpoint index_from (target : string) (vars : list string) (i : nat) : option nat :=
  match vars with
  | [] => None
  | v :: rest => if decide (v = target) then Some i else index_from target rest (S i)
  end.

Definition indexOf (target : option string) (vars : list string) : option nat :=
  match target with
  | None => None
  | Some t => index_from t vars 0
  end.

(** [vars.splice(i, 1, line)] *)
Definition splice1 (i : nat) (line : string) (vars : list string) : list string :=
  take i vars ++ line :: drop (S i) vars.

(** The hole [${value || ''}] *)
Definition value_or_empty (v : option value) : string :=
  if truthy v then match v with Some x => ToString x | None => "" end else "".

(** ** The class *)

Record StencilConfigManager : Type := {
  oldConfigFileName : string;
  configFileName : string;
  secretsFileName : string;
  themePath : string;
  oldConfigPath : string;
  configPath : string;
  secretsPath : string;
  secretFieldsSet : gset string;
  EOL : string
}.

(** [new StencilConfigManager({ themePath, os })]; of [os] only the line
    separator is used. *)
Definition new (themePath os_EOL : string) : StencilConfigManager := {|
  oldConfigFileName := ".stencil";
  configFileName := "config.stencil.json";
  secretsFileName := "secrets.stencil.json";
  themePath := themePath;
  oldConfigPath := path_join themePath ".stencil";
  configPath := path_join themePath "config.stencil.json";
  secretsPath := path_join themePath "secrets.stencil.json";
  secretFieldsSet := {[ "accessToken"; "githubToken" ]};
  EOL := os_EOL
|}.

Record split_config : Type := {
  secretsConfig : object;
  generalConfig : object
}.

Section Methods.

(** The constant [API_HOST] of [../constants]. *)
Variable API_HOST : string.

(** The JSON reader behind [fsUtils.parseJsonFile]: the object a text
    denotes, or [None] for a malformed text. *)
Variable parseJson : string -> option object.

Variable this : StencilConfigManager.

(** Modelled from the spec: [parseJsonFile] of [./utils/fsUtils], which
    "given a path, returns a parsed object or fails on malformed
    JSON/unreadable file". *)
Definition parseJsonFile (path : string) : M object :=
  content ← fs.readFileSync (Some path);
  match parseJson content with
  | Some o => mret o
  | None => throw (JsonParseError path)
  end.

Definition _setEnvValueToFile
    (key : string) (value : option value) (envFile : option string) : M unit :=
  present ← fs.existsSync envFile;
  (if negb present then fs.openSync_a envFile else mret tt);;
  content ← fs.readFileSync envFile;
  let vars := List.filter (fun v => negb (truthy (Some (VStr v))))
                (Js.split (EOL this) content) in
  let target := List.find (key_pattern_matches key) vars in
  let targetIndex := indexOf target vars in
  let line := key +:+ "=" +:+ value_or_empty value in
  let vars' :=
    match targetIndex with
    | Some i => splice1 i line vars
    | None => vars ++ [line]
    end in
  fs.writeFile envFile (Js.join (EOL this) vars').

(** The callback of [reduce] in [_splitStencilConfig]. *)
Definition split_reducer (res : split_config) (kv : string * value) : split_config :=
  let (key, value) := kv in
  if decide (key ∈ secretFieldsSet this)
  then {| secretsConfig := assign key value (secretsConfig res);
          generalConfig := generalConfig res |}
  else {| secretsConfig := secretsConfig res;
          generalConfig := assign key value (generalConfig res) |}.

Definition _splitStencilConfig (config : object) : split_config :=
  fold_left split_reducer config {| secretsConfig := []; generalConfig := [] |}.

Definition save (config : object) (envFile : option string) : M unit :=
  let parts := _splitStencilConfig config in
  fs.writeFile (Some (configPath this)) (JSON.stringify (VObj (generalConfig parts)));;
  _setEnvValueToFile "STENCIL_ACCESS_TOKEN" (get "accessToken" (secretsConfig parts)) envFile;;
  _setEnvValueToFile "STENCIL_GITHUB_TOKEN" (get "githubToken" (secretsConfig parts)) envFile.

(** [process.env.NAME || null] *)
Definition env_or_null (v : option string) : value :=
  match v with
  | None => VNull
  | Some s => if bool_decide (s = "") then VNull else VStr s
  end.

Definition _getSecretsConfigFromEnvVars : M value :=
  accessToken ← getenv "STENCIL_ACCESS_TOKEN";
  githubToken ← getenv "STENCIL_GITHUB_TOKEN";
  mret (VObj [("accessToken", env_or_null accessToken);
              ("githubToken", env_or_null githubToken)]).

(** The configuration is changed in place and returned; the model returns
    the changed configuration. *)
Definition _validateStencilConfig
    (configFile : object) (ignoreMissingFields : bool) : M object :=
  let config := configFile in
  if negb ignoreMissingFields &&
     (negb (truthy (get "normalStoreUrl" config)) ||
      negb (truthy (get "customLayouts" config)))
  then throw ConfigOutdated
  else if negb (truthy (get "apiHost" config))
  then log ApiHostFallbackNotice;; mret (set "apiHost" (VStr API_HOST) config)
  else mret config.

(** [save] is called with the configuration only: [envFile] is
    [undefined]. *)
Definition _migrateOldConfig (config : object) : M unit :=
  log DeprecatedFileNotice;;
  save config None;;
  fs.unlink (oldConfigPath this);;
  log ReplacedFileNotice.

(** [read] answers an object, or [null] ([VNull]). *)
Definition read (ignoreFileNotExists ignoreMissingFields : bool) : M value :=
  legacy ← fs.existsSync (Some (oldConfigPath this));
  if legacy : bool then
    parsedConfig ← try_catch (parseJsonFile (oldConfigPath this)) (fun _ => mret []);
    _migrateOldConfig parsedConfig;;
    config ← _validateStencilConfig parsedConfig ignoreMissingFields;
    mret (VObj config)
  else
    present ← fs.existsSync (Some (configPath this));
    generalConfig ← (if present : bool
                     then o ← parseJsonFile (configPath this); mret (VObj o)
                     else mret VNull);
    secretsConfig ← _getSecretsConfigFromEnvVars;
    if truthy (Some generalConfig) || truthy (Some secretsConfig) then
      let parsedConfig := spread generalConfig secretsConfig in
      config ← _validateStencilConfig parsedConfig ignoreMissingFields;
      mret (VObj config)
    else if ignoreFileNotExists then mret VNull
    else throw PleaseRunInitFirst.

End Methods.

(** ** A JSON reader

    A reader for JSON texts whose numbers are integers and whose escapes
    stay below code unit 256; the methods are run with it.  A text outside
    this fragment is rejected. *)

Module JsonText.

Definition is_ws (c : ascii) : bool :=
  let n := nat_of_ascii c in
  bool_decide (n = 32 ∨ n = 9 ∨ n = 10 ∨ n = 13)%nat.

Fixpoint skip_ws (s : string) : string :=
  match s with
  | EmptyString => ""
  | String c s' => if is_ws c then skip_ws s' else s
  end.

Definition digit_of (c : ascii) : option Z :=
  let n := nat_of_ascii c in
  if decide (48 ≤ n ∧ n ≤ 57)%nat then Some (Z.of_nat n - 48) else None.

Definition hex_of (c : ascii) : option nat :=
  let n := nat_of_ascii c in
  if decide (48 ≤ n ∧ n ≤ 57)%nat then Some (n - 48)%nat
  else if decide (97 ≤ n ∧ n ≤ 102)%nat then Some (n - 87)%nat
  else if decide (65 ≤ n ∧ n ≤ 70)%nat then Some (n - 55)%nat
  else None.

Fixpoint digits (acc : Z) (s : string) : Z * string :=
  match s with
  | EmptyString => (acc, "")
  | String c s' =>
      match digit_of c with
      | Some d => digits (10 * acc + d) s'
      | None => (acc, s)
      end
  end.

(** An unsigned integer without a superfluous leading zero, not followed
    by a fraction or an exponent. *)
Definition unsigned (s : string) : option (Z * string) :=
  match s with
  | EmptyString => None
  | String c s' =>
      match digit_of c with
      | None => None
      | Some d =>
          let (n, rest) := if decide (d = 0) then (0, s') else digits d s' in
          match rest with
          | String r _ =>
              if decide (r = "."%char ∨ r = "e"%char ∨ r = "E"%char
                         ∨ is_Some (digit_of r))
              then None else Some (n, rest)
          | EmptyString => Some (n, rest)
          end
      end
  end.

Definition backslash : ascii := "092"%char.
Definition dquote : ascii := "034"%char.

(** The characters of a string literal after its opening quote. *)
Fixpoint string_body (s : string) : option (string * string) :=
  match s with
  | EmptyString => None
  | String c s' =>
      if decide (c = dquote) then Some ("", s')
      else if decide (c = backslash) then
        match s' with
        | String e s'' =>
            let plain (x : ascii) :=
              match string_body s'' with
              | Some (body, rest) => Some (String x body, rest)
              | None => None
              end in
            if decide (e = dquote) then plain dquote
            else if decide (e = backslash) then plain backslash
            else if decide (e = "/"%char) then plain "/"%char
            else if decide (e = "b"%char) then plain "008"%char
            else if decide (e = "f"%char) then plain "012"%char
            else if decide (e = "n"%char) then plain "010"%char
            else if decide (e = "r"%char) then plain "013"%char
            else if decide (e = "t"%char) then plain "009"%char
            else if decide (e = "u"%char) then
              match s'' with
              | String h1 (String h2 (String h3 (String h4 s4))) =>
                  match hex_of h1, hex_of h2, hex_of h3, hex_of h4, string_body s4 with
                  | Some 0%nat, Some 0%nat, Some a, Some b, Some (body, rest) =>
                      Some (String (ascii_of_nat (16 * a + b)) body, rest)
                  | _, _, _, _, _ => None
                  end
              | _ => None
              end
            else None
        | EmptyString => None
        end
      else if decide (nat_of_ascii c < 32)%nat then None
      else
        match string_body s' with
        | Some (body, rest) => Some (String c body, rest)
        | None => None
        end
  end.

Definition literal (word : string) (v : value) (s : string) : option (value * string) :=
  if Js.starts_with word s
  then Some (v, String.substring (String.length word) (String.length s) s)
  else None.

(** [parse_value] reads one value; [parse_items] and [parse_members] read
    what follows the opening bracket or brace.  A repeated key keeps its
    first place and its last value. *)
Fixpoint parse_value (fuel : nat) (s : string) : option (value * string) :=
  match fuel with
  | O => None
  | S fuel' =>
      match skip_ws s with
      | EmptyString => None
      | String c s' as text =>
          if decide (c = "{"%char) then
            match skip_ws s' with
            | String "}" rest => Some (VObj [], rest)
            | inner =>
                match parse_members fuel' [] inner with
                | Some (fields, rest) => Some (VObj fields, rest)
                | None => None
                end
            end
          else if decide (c = "["%char) then
            match skip_ws s' with
            | String "]" rest => Some (VArr [], rest)
            | inner =>
                match parse_items fuel' [] inner with
                | Some (items, rest) => Some (VArr items, rest)
                | None => None
                end
            end
          else if decide (c = dquote) then
            match string_body s' with
            | Some (str, rest) => Some (VStr str, rest)
            | None => None
            end
          else if decide (c = "-"%char) then
            match unsigned s' with
            | Some (n, rest) => Some (VNum (- n), rest)
            | None => None
            end
          else if decide (c = "t"%char) then literal "true" (VBool true) text
          else if decide (c = "f"%char) then literal "false" (VBool false) text
          else if decide (c = "n"%char) then literal "null" VNull text
          else
            match unsigned text with
            | Some (n, rest) => Some (VNum n, rest)
            | None => None
            end
      end
  end
with parse_items (fuel : nat) (acc : list value) (s : string)
    : option (list value * string) :=
  match fuel with
  | O => None
  | S fuel' =>
      match parse_value fuel' s with
      | None => None
      | Some (v, rest) =>
          match skip_ws rest with
          | String "," rest' => parse_items fuel' (acc ++ [v]) rest'
          | String "]" rest' => Some (acc ++ [v], rest')
          | _ => None
          end
      end
  end
with parse_members (fuel : nat) (acc : object) (s : string)
    : option (object * string) :=
  match fuel with
  | O => None
  | S fuel' =>
      match skip_ws s with
      | String c s' =>
          if decide (c = dquote) then
            match string_body s' with
            | None => None
            | Some (key, rest) =>
                match skip_ws rest with
                | String ":" rest' =>
                    match parse_value fuel' rest' with
                    | None => None
                    | Some (v, rest'') =>
                        match skip_ws rest'' with
                        | String "," more => parse_members fuel' (set key v acc) more
                        | String "}" more => Some (set key v acc, more)
                        | _ => None
                        end
                    end
                | _ => None
                end
            end
          else None
      | EmptyString => None
      end
  end.

(** The object a whole text denotes. *)
Definition parse (s : string) : option object :=
  match parse_value (2 * String.length s + 2) s with
  | Some (VObj fields, rest) =>
      match skip_ws rest with
      | EmptyString => Some fields
      | _ => None
      end
  | _ => None
  end.

End JsonText.

(** ** The secrets file

    [_getSecretsConfig] reads a secrets file: the one the general
    configuration names in [secretsFileName] when it exists, else the
    default one, and answers [null] without either.  [read] no longer calls
    it.  [path.join] throws on a name that is not a string. *)

(** [v.key] on a value that is not [null]. *)
Definition prop (key : string) (v : value) : option value :=
  match v with
  | VObj fields => get key fields
  | _ => None
  end.

Section SecretsFile.

Variable parseJson : string -> option object.
Variable this : StencilConfigManager.

Definition parse_if_exists (path : string) (otherwise : M value) : M value :=
  present ← fs.existsSync (Some path);
  if present : bool
  then o ← parseJsonFile parseJson path; mret (VObj o)
  else otherwise.

Definition _getSecretsConfig (generalConfig : value) : M value :=
  let default_file := parse_if_exists (secretsPath this) (mret VNull) in
  if truthy (Some generalConfig) && truthy (prop "secretsFileName" generalConfig)
  then
    match prop "secretsFileName" generalConfig with
    | Some (VStr name) =>
        parse_if_exists (path_join (themePath this) name) default_file
    | _ => throw ERR_INVALID_ARG_TYPE
    end
  else default_file.

End SecretsFile.

(** ** Vocabulary of the statements *)

(** The lines the upsert keeps of a text: [split] then [filter], as in
    [_setEnvValueToFile]. *)
Definition kept_lines (eol content : string) : list string :=
  List.filter (fun v => negb (truthy (Some (VStr v)))) (Js.split eol content).

(** The text the upsert leaves, as a function of the text it finds. *)
Definition upsert_text (eol key : string) (value : option value) (content : string)
    : string :=
  Js.join eol (kept_lines eol content ++ [key +:+ "=" +:+ value_or_empty value]).

(** The text of a file; a missing file reads as the empty text, which is
    what the upsert creates first. *)
Definition file_text (w : world) (p : string) : string :=
  match files w !! p with
  | Some (File content) => content
  | _ => ""
  end.

(** The lines of a text that the pattern of [key] matches. *)
Definition lines_for (eol key content : string) : list string :=
  List.filter (key_pattern_matches key) (Js.split eol content).



(** The upsert as the specification words it: the empty lines are dropped,
    the first line that the pattern matches is replaced in place, and
    without such a line the new line is appended. *)
Definition specified_upsert_text (eol key : string) (value : option value)
    (content : string) : string :=
  let vars := List.filter (fun v => truthy (Some (VStr v))) (Js.split eol content) in
  let line := key +:+ "=" +:+ value_or_empty value in
  Js.join eol
    match indexOf (List.find (key_pattern_matches key) vars) vars with
    | Some i => splice1 i line vars
    | None => vars ++ [line]
    end.

(** ** A project to run the methods on *)

Module Scenario.

Definition nl : string := String "010"%char "".

Definition quoted (s : string) : string := JSON.dquote +:+ s +:+ JSON.dquote.

(** A manager for the theme directory [/theme] on a system whose line
    separator is the line feed. *)
Definition manager : StencilConfigManager := new "/theme" nl.

Definition env_file : string := "/theme/.env".

(** A value for the constant [API_HOST]. *)
Definition api_host : string := "https://api.bigcommerce.com".

(** No file, no environment variable, nothing logged. *)
Definition bare : world := World ∅ ∅ [].

Definition with_file (p content : string) (w : world) : world :=
  with_files (<[p := File content]> (files w)) w.

Definition upsert (key value : string) (w : world) : outcome unit * world :=
  _setEnvValueToFile manager key (Some (VStr value)) (Some env_file) w.

Definition env_lines (w : world) : list string :=
  Js.split nl (file_text w env_file).

Definition tokens_config : object :=
  [("accessToken", VStr "abc"); ("githubToken", VStr "ghp")].

(** A valid configuration with both secrets. *)
Definition store_config : object :=
  [("normalStoreUrl", VStr "http://x"); ("customLayouts", VBool true);
   ("accessToken", VStr "abc"); ("githubToken", VStr "ghp")].


(** The legacy file of the migration scenario, as one line of JSON. *)
Definition legacy_text : string :=
  "{" +:+ quoted "normalStoreUrl" +:+ ":" +:+ quoted "http://x" +:+ "," +:+
  quoted "customLayouts" +:+ ":true," +:+
  quoted "accessToken" +:+ ":" +:+ quoted "abc" +:+ "}".

Definition legacy_config : object :=
  [("normalStoreUrl", VStr "http://x"); ("customLayouts", VBool true);
   ("accessToken", VStr "abc")].

(** A project that holds the legacy file only. *)
Definition legacy_project : world :=
  with_file (oldConfigPath manager) legacy_text bare.

(** A project whose general configuration path is a directory. *)
Definition blocked_project : world :=
  with_files (<[configPath manager := Dir]> (files legacy_project)) legacy_project.

(** A project without files, run with an empty access token and a GitHub
    token in the environment. *)
Definition empty_token_project : world :=
  World ∅ {[ "STENCIL_ACCESS_TOKEN" := ""; "STENCIL_GITHUB_TOKEN" := "ghp" ]} [].

Definition run_read (inf imf : bool) (w : world) : outcome value * world :=
  read api_host JsonText.parse manager inf imf w.

End Scenario.

(** The process environment with the variables that hold the empty string
    removed. *)
Definition unset_empty (env : gmap string string) : gmap string string :=
  filter (fun kv => kv.2 ≠ "") env.

Definition with_env (env : gmap string string) (w : world) : world :=
  World (files w) env (console w).

(** ** Vocabulary of the further statements *)

(** A computation that leaves the environment and the console as they
    were, and every file outside [paths]. *)
Definition touches_only {A} (paths : list string) (m : M A) : Prop :=
  ∀ w, process_env (m w).2 = process_env w
       ∧ console (m w).2 = console w
       ∧ ∀ q, q ∉ paths → files (m w).2 !! q = files w !! q.

(** The paths an optional path argument stands for. *)
Definition path_list (path : option string) : list string :=
  match path with
  | Some p => [p]
  | None => []
  end.

(** The fields of an object that an assignment keeps and whose keys are,
    or are not, secret. *)
Definition secret_fields (this : StencilConfigManager) (o : object) : object :=
  List.filter
    (fun kv => bool_decide ((kv.1 ∈ secretFieldsSet this) ∧ kv.1 ≠ "__proto__")) o.

Definition plain_fields_of (this : StencilConfigManager) (o : object) : object :=
  List.filter
    (fun kv => bool_decide ((kv.1 ∉ secretFieldsSet this) ∧ kv.1 ≠ "__proto__")) o.

(** A file name: not empty, not [.] nor [..], without a separator. *)
Definition file_name (name : string) : Prop :=
  name ≠ "" ∧ name ≠ "." ∧ name ≠ ".." ∧ Js.includes "/" name = false.

(** What [path.join] puts before a file name that it joins to [dir]: the
    normalised directory and a separator, or nothing when the directory
    comes to nothing. *)
Definition dir_prefix (dir : string) : string :=
  let absolute := Js.starts_with "/" dir in
  (if absolute then "/" else "") +:+
  match Path.normalizeString (negb absolute) [] (Js.split "/" dir) with
  | [] => ""
  | kept => Js.join "/" kept +:+ "/"
  end.

(** The directory made of the segments [segments], from the root or not. *)
Definition directory (absolute : bool) (segments : list string) : string :=
  (if absolute then "/" else "") +:+ Js.join "/" segments.


(** Further projects to run the methods on. *)
Module Cases.

(** A project whose general file is not JSON. *)
Definition broken_general : world :=
  Scenario.with_file (configPath Scenario.manager) "{oops" Scenario.bare.

(** A project with a general file that carries an access token, read with
    another token in the environment. *)
Definition general_text : string :=
  "{" +:+ Scenario.quoted "normalStoreUrl" +:+ ":" +:+ Scenario.quoted "http://x" +:+ "," +:+
  Scenario.quoted "customLayouts" +:+ ":true," +:+
  Scenario.quoted "accessToken" +:+ ":" +:+ Scenario.quoted "stale" +:+ "}".

Definition general_object : object :=
  [("normalStoreUrl", VStr "http://x"); ("customLayouts", VBool true);
   ("accessToken", VStr "stale")].

Definition current_project : world :=
  World {[ configPath Scenario.manager := File general_text ]}
        {[ "STENCIL_ACCESS_TOKEN" := "tok123" ]} [].

(** The same project after somebody wrote another token to the
    environment file. *)
Definition current_project_with_env_file : world :=
  Scenario.with_file Scenario.env_file "STENCIL_ACCESS_TOKEN=other" current_project.

(** A project whose legacy file is not JSON. *)
Definition broken_legacy : world :=
  Scenario.with_file (oldConfigPath Scenario.manager) "{oops" Scenario.bare.

(** A project without files, with an access token in the environment. *)
Definition token_only : world :=
  World ∅ {[ "STENCIL_ACCESS_TOKEN" := "tok123" ]} [].

(** A project whose environment file path is a directory. *)
Definition env_is_directory : world :=
  with_files (<[Scenario.env_file := Dir]> ∅) Scenario.bare.



(** Secrets files: the default one, and one that the general configuration
    names. *)
Definition secrets_text (token : string) : string :=
  "{" +:+ Scenario.quoted "accessToken" +:+ ":" +:+ Scenario.quoted token +:+ "}".

Definition named_secrets : value :=
  VObj [("secretsFileName", VStr "my.secrets.json")].

Definition both_secrets_files : world :=
  World {[ secretsPath Scenario.manager := File (secrets_text "default");
           "/theme/my.secrets.json" := File (secrets_text "named") ]} ∅ [].

Definition default_secrets_file : world :=
  World {[ secretsPath Scenario.manager := File (secrets_text "default") ]} ∅ [].

(** A configuration with a field named [__proto__], as [JSON.parse] makes
    one of a text with that key. *)
Definition proto_config : object :=
  [("normalStoreUrl", VStr "http://x");
   ("__proto__", VObj [("customLayouts", VBool true)]);
   ("accessToken", VStr "abc");
   ("customLayouts", VBool false)].

End Cases.


(** A text ends commented when its last [#] is followed by blanks only;
    [state] tells whether the text read so far ends commented. *)
Fixpoint ends_commented (state : bool) (text : string) : bool :=
  match text with
  | EmptyString => state
  | String c rest =>
      ends_commented
        (if decide (c = "#"%char) then true
         else if Js.is_space c then state
         else false)
        rest
  end.

(** ** Strings *)

Lemma str_app_cons (c : ascii) (a b : string) : String c a +:+ b = String c (a +:+ b).
Proof. reflexivity. Qed.

Lemma str_app_nil_r (a : string) : a +:+ "" = a.
Proof. induction a as [|c a IH]; [done|]. by rewrite str_app_cons, IH. Qed.

Lemma str_app_assoc (a b c : string) : (a +:+ b) +:+ c = a +:+ (b +:+ c).
Proof. induction a as [|x a IH]; [done|]. by rewrite !str_app_cons, IH. Qed.

Lemma starts_with_app (p s : string) : Js.starts_with p (p +:+ s) = true.
Proof.
  induction p as [|c p IH]; [by destruct s|].
  rewrite str_app_cons. simpl. by rewrite decide_True.
Qed.

Lemma starts_with_nil (p : string) : p ≠ "" → Js.starts_with p "" = false.
Proof. by destruct p. Qed.

Lemma includes_cons (sep : string) (c : ascii) (s : string) :
  Js.includes sep (String c s) = false →
  Js.starts_with sep (String c s) = false ∧ Js.includes sep s = false.
Proof. cbn [Js.includes]. by intros [? ?]%orb_false_iff. Qed.



(** A text without the separator is one piece. *)
Lemma split_go_plain (sep line cur : string) :
  Js.includes sep line = false →
  Js.split_go sep line 0 cur = [cur +:+ line].
Proof.
  revert cur. induction line as [|c line IH]; intros cur Hno.
  - by rewrite str_app_nil_r.
  - apply includes_cons in Hno as [Hhead Htail].
    cbn [Js.split_go]. rewrite Hhead, (IH _ Htail).
    by rewrite str_app_assoc.
Qed.



(** ** The pattern *)

Lemma pattern_blank (key : string) : key_pattern_matches key "" = false.
Proof.
  unfold key_pattern_matches. cbn [key_pattern_from].
  rewrite starts_with_nil; [done|]. by destruct key.
Qed.


(** ** Paths *)

Lemma str_app_inv_nil (a b : string) : a +:+ b = "" → b = "".
Proof. by destruct a. Qed.

(** Splitting at a separator of one character: the pieces before an
    occurrence, then those after it. *)
Lemma split_go_app (c : ascii) (a b cur : string) :
  Js.split_go (String c "") (a +:+ String c b) 0 cur
  = Js.split_go (String c "") a 0 cur ++ Js.split_go (String c "") b 0 "".
Proof.
  revert cur. induction a as [|x a IH]; intros cur.
  - change ("" +:+ String c b) with (String c b).
    cbn [Js.split_go Js.starts_with String.length].
    by rewrite decide_True.
  - rewrite str_app_cons. cbn [Js.split_go Js.starts_with String.length].
    destruct (decide (c = x)) as [->|Hne].
    + cbn [Nat.sub]. by rewrite IH.
    + by rewrite IH.
Qed.

Lemma ends_with_separator_app (a b : string) :
  b ≠ "" → Path.ends_with_separator (a +:+ b) = Path.ends_with_separator b.
Proof.
  intros Hb. induction a as [|x a IH]; [done|].
  rewrite str_app_cons. cbn [Path.ends_with_separator].
  destruct (a +:+ b) eqn:E; [|exact IH].
  by apply str_app_inv_nil in E.
Qed.

Lemma ends_with_separator_plain (name : string) :
  Js.includes "/" name = false → Path.ends_with_separator name = false.
Proof.
  induction name as [|c name IH]; [done|].
  intros [Hhead Htail]%includes_cons. cbn [Path.ends_with_separator].
  destruct name as [|c' name']; [|by apply IH].
  cbn [Js.starts_with] in Hhead. case_decide; [done|].
  by rewrite bool_decide_false by congruence.
Qed.

Lemma starts_with_separator_app (a b : string) :
  a ≠ "" → Js.starts_with "/" (a +:+ b) = Js.starts_with "/" a.
Proof. by destruct a. Qed.

Lemma starts_with_separator_plain (name : string) :
  Js.includes "/" name = false → Js.starts_with "/" name = false.
Proof. destruct name; [done|]. by intros [? _]%includes_cons. Qed.

Lemma normalizeString_app (allow : bool) (res l1 l2 : list string) :
  Path.normalizeString allow res (l1 ++ l2)
  = Path.normalizeString allow (rev (Path.normalizeString allow res l1)) l2.
Proof.
  revert res. induction l1 as [|seg l1 IH]; intros res.
  - cbn [app Path.normalizeString]. by rewrite rev_involutive.
  - cbn [app Path.normalizeString]. repeat case_match; apply IH.
Qed.

Lemma normalizeString_file_names (allow : bool) (res l : list string) :
  Forall file_name l → Path.normalizeString allow res l = rev res ++ l.
Proof.
  intros Hl. revert res. induction Hl as [|name l Hname _ IH]; intros res.
  - cbn. by rewrite app_nil_r.
  - destruct Hname as (Hne & Hdot & Hdots & _). cbn [Path.normalizeString].
    rewrite decide_False by (by intros [?|?]).
    rewrite decide_False by done.
    rewrite IH. cbn [rev]. by rewrite <- app_assoc.
Qed.

Lemma join_snoc (sep : string) (l : list string) (x : string) :
  Js.join sep (l ++ [x])
  = match l with
    | [] => ""
    | _ => Js.join sep l +:+ sep
    end +:+ x.
Proof.
  induction l as [|y l IH]; [done|].
  destruct l as [|z l]; [cbn; by rewrite str_app_assoc|].
  change ((y :: z :: l) ++ [x]) with (y :: ((z :: l) ++ [x])).
  change (Js.join sep (y :: ((z :: l) ++ [x])))
    with (y +:+ sep +:+ Js.join sep ((z :: l) ++ [x])).
  rewrite IH.
  change (Js.join sep (y :: z :: l)) with (y +:+ sep +:+ Js.join sep (z :: l)).
  by rewrite !str_app_assoc.
Qed.

(** The path of a file name under a directory, normalised. *)
Lemma normalize_file_name (dir path name : string) (segments : list string) :
  file_name name →
  Js.starts_with "/" path = Js.starts_with "/" dir →
  (∃ a, path = a +:+ name) →
  Js.split "/" path = segments ++ [name] →
  Path.normalizeString (negb (Js.starts_with "/" dir)) [] segments
  = Path.normalizeString (negb (Js.starts_with "/" dir)) [] (Js.split "/" dir) →
  Path.normalize path = dir_prefix dir +:+ name.
Proof.
  intros Hname Hstart [a ->] Hsplit Hsegments.
  pose proof Hname as (Hne & _ & _ & Hplain).
  assert (Hnonempty : ∀ b, b +:+ name ≠ "").
  { intros b Hb. by apply str_app_inv_nil in Hb. }
  unfold Path.normalize, dir_prefix.
  rewrite decide_False by apply Hnonempty.
  rewrite ends_with_separator_app by done.
  rewrite ends_with_separator_plain by done.
  rewrite Hstart, Hsplit.
  rewrite normalizeString_app, (normalizeString_file_names _ _ [name]), rev_involutive
    by (by constructor).
  rewrite Hsegments, join_snoc.
  rewrite decide_False by apply Hnonempty.
  rewrite str_app_nil_r.
  rewrite str_app_assoc.
  by destruct (Path.normalizeString _ [] (Js.split "/" dir)).
Qed.

(** Joined to a directory, a file name is the last segment of the path. *)
Lemma path_join_file_name (dir name : string) :
  file_name name → path_join dir name = dir_prefix dir +:+ name.
Proof.
  intros Hname. pose proof Hname as (Hne & _ & _ & Hplain).
  unfold path_join, Path.join.
  rewrite (decide_False (P := name = "")) by done.
  destruct (decide (dir = "")) as [->|Hdir].
  - apply (normalize_file_name "" name name []); [done| |by exists ""| |done].
    + by rewrite starts_with_separator_plain.
    + unfold Js.split. by rewrite split_go_plain.
  - apply (normalize_file_name dir _ name (Js.split "/" dir)); [done| | | |done].
    + by apply starts_with_separator_app.
    + exists (dir +:+ "/"). by rewrite str_app_assoc.
    + unfold Js.split. change (dir +:+ "/" +:+ name) with (dir +:+ String "/" name).
      rewrite (split_go_app "/"). by rewrite (split_go_plain _ name).
Qed.

(** Two file names joined to one directory give two paths. *)
Lemma path_join_inj (dir name name' : string) :
  file_name name → file_name name' →
  path_join dir name = path_join dir name' → name = name'.
Proof.
  intros Hname Hname'. rewrite !path_join_file_name by done.
  apply (inj (String.app _)).
Qed.

Lemma file_name_old : file_name ".stencil".
Proof. by split_and!. Qed.

Lemma file_name_general : file_name "config.stencil.json".
Proof. by split_and!. Qed.

Lemma file_name_secrets : file_name "secrets.stencil.json".
Proof. by split_and!. Qed.

(** Splitting a path made of file names gives the names back. *)
Lemma split_join_file_names (segments : list string) (cur : string) :
  segments ≠ [] → Forall file_name segments →
  Js.split_go "/" (Js.join "/" segments) 0 cur
  = match segments with
    | [] => []
    | first :: rest => (cur +:+ first) :: rest
    end.
Proof.
  intros Hne Hall. revert cur. induction Hall as [|name l Hname Hl IH]; [done|].
  intros cur. destruct Hname as (_ & _ & _ & Hplain).
  destruct l as [|name' l].
  - cbn [Js.join]. by apply split_go_plain.
  - change (Js.join "/" (name :: name' :: l))
      with (name +:+ "/" +:+ Js.join "/" (name' :: l)).
    change (name +:+ "/" +:+ Js.join "/" (name' :: l))
      with (name +:+ String "/" (Js.join "/" (name' :: l))).
    rewrite (split_go_app "/"), split_go_plain by done.
    by rewrite IH.
Qed.

(** Before a file name, [path.join] puts a directory made of file names
    as it is, and a separator. *)
Lemma dir_prefix_directory (absolute : bool) (segments : list string) :
  segments ≠ [] → Forall file_name segments →
  dir_prefix (directory absolute segments) = directory absolute segments +:+ "/".
Proof.
  intros Hne Hall. unfold dir_prefix, directory.
  assert (Hjoin : Js.join "/" segments ≠ "" ∧ Js.starts_with "/" (Js.join "/" segments) = false).
  { destruct Hall as [|name l (Hname & _ & _ & Hplain) _]; [done|].
    assert (∃ rest, Js.join "/" (name :: l) = name +:+ rest) as [rest ->].
    { destruct l; [exists ""; by rewrite str_app_nil_r|by eexists]. }
    split; [by destruct name|].
    rewrite starts_with_separator_app by done. by apply starts_with_separator_plain. }
  destruct Hjoin as [Hnonempty Hrelative].
  destruct absolute.
  - change (Js.starts_with "/" ("/" +:+ Js.join "/" segments)) with true.
    cbn [negb]. unfold Js.split.
    change ("/" +:+ Js.join "/" segments) with ("" +:+ String "/" (Js.join "/" segments)).
    rewrite (split_go_app "/" "" (Js.join "/" segments) "").
    rewrite split_join_file_names by done.
    cbn [Js.split_go app Path.normalizeString].
    rewrite decide_True by (by left).
    destruct segments as [|first rest]; [done|].
    change ("" +:+ first) with first.
    rewrite (normalizeString_file_names false [] (first :: rest)) by done.
    done.
  - change ("" +:+ Js.join "/" segments) with (Js.join "/" segments).
    rewrite Hrelative. cbn [negb]. unfold Js.split.
    rewrite split_join_file_names by done.
    destruct segments as [|first rest]; [done|].
    change ("" +:+ first) with first.
    rewrite (normalizeString_file_names true [] (first :: rest)) by done.
    done.
Qed.

(** ** The environment-file upsert *)

Lemma kept_lines_blank (eol content : string) :
  kept_lines eol content = replicate (length (kept_lines eol content)) "".
Proof.
  unfold kept_lines. induction (Js.split eol content) as [|v vars IH]; [done|].
  cbn [List.filter truthy]. rewrite negb_involutive.
  case_bool_decide as Hv; [|exact IH].
  subst v. cbn [length replicate]. f_equal. exact IH.
Qed.

Lemma find_blank (key : string) (k : nat) :
  List.find (key_pattern_matches key) (replicate k "") = None.
Proof. induction k as [|k IH]; [done|]. cbn [replicate List.find]. by rewrite pattern_blank. Qed.


(** What one upsert does to the world: the file at [p] is rewritten with
    [upsert_text] of what it held. *)
Lemma upsert_run (this : StencilConfigManager) key value (p : string) (w : world) :
  files w !! p ≠ Some Dir →
  _setEnvValueToFile this key value (Some p) w =
    (Return tt,
     with_files (<[p := File (upsert_text (EOL this) key value (file_text w p))]> (files w)) w).
Proof.
  intros Hdir.
  assert (Hfind : ∀ content,
    indexOf (List.find (key_pattern_matches key) (kept_lines (EOL this) content))
            (kept_lines (EOL this) content) = None).
  { intros content. rewrite (kept_lines_blank _ content) at 1. by rewrite find_blank. }
  unfold _setEnvValueToFile, file_text, upsert_text, mbind, M_bind, bind, mret, M_ret, ret.
  unfold fs.existsSync, fs.openSync_a, fs.readFileSync, fs.writeFile.
  fold (kept_lines (EOL this)).
  destruct (files w !! p) as [[content|]|] eqn:Hp; [| done |].
  - rewrite bool_decide_true by eauto. cbn [negb]. rewrite Hp.
    fold (kept_lines (EOL this) content). by rewrite Hfind, Hp.
  - rewrite bool_decide_false by (intros [? ?]; done). cbn [negb].
    rewrite Hp. cbn [files with_files]. rewrite lookup_insert_eq. cbv beta iota.
    cbn [files with_files]. rewrite lookup_insert_eq.
    fold (kept_lines (EOL this) ""). rewrite Hfind.
    unfold with_files; cbn [files process_env console]. by rewrite insert_insert_eq.
Qed.

(** After an upsert the file is a number of blank lines and the line of
    the key. *)
Lemma upsert_text_shape (eol key : string) value (content : string) :
  ∃ k, upsert_text eol key value content
       = Js.join eol (replicate k "" ++ [key +:+ "=" +:+ value_or_empty value]).
Proof. unfold upsert_text. rewrite kept_lines_blank. eauto. Qed.





(** ** Objects *)

Section Objects.

Implicit Types (o : object) (k : string) (v : value).

Lemma get_set_eq k v o : get k (set k v o) = Some v.
Proof.
  induction o as [|[k' w] o IH]; cbn [set get].
  - by rewrite decide_True.
  - destruct (decide (k' = k)) as [->|Hne]; cbn [get].
    + by rewrite decide_True.
    + by rewrite decide_False.
Qed.

Lemma get_set_ne k k' v o : k ≠ k' → get k (set k' v o) = get k o.
Proof.
  intros Hne. induction o as [|[k'' w] o IH]; cbn [set get].
  - by rewrite decide_False.
  - destruct (decide (k'' = k')) as [->|Hne']; cbn [get]; [|by rewrite IH].
    by rewrite !decide_False.
Qed.

Lemma get_None k o : k ∉ o.*1 → get k o = None.
Proof.
  induction o as [|[k' w] o IH]; [done|].
  cbn [get fmap list_fmap fst]. intros Hk.
  apply not_elem_of_cons in Hk as [Hne Hk]. rewrite decide_False by done. auto.
Qed.

(** Assigning the fields of [l], which has distinct keys, in turn. *)
Lemma get_fold_set k (l : object) o :
  NoDup l.*1 →
  get k (fold_left (fun acc kv => set kv.1 kv.2 acc) l o)
  = match get k l with Some v => Some v | None => get k o end.
Proof.
  revert o. induction l as [|[k' w] l IH]; intros o Hnd; [done|].
  cbn [fmap list_fmap fst] in Hnd. apply NoDup_cons in Hnd as [Hk' Hnd].
  cbn [fold_left get fst snd]. rewrite (IH _ Hnd).
  destruct (decide (k' = k)) as [->|Hne].
  - by rewrite (get_None _ _ Hk'), get_set_eq.
  - by rewrite get_set_ne.
Qed.

Lemma keys_set k v o :
  (set k v o).*1 = if decide (k ∈ o.*1) then o.*1 else o.*1 ++ [k].
Proof.
  induction o as [|[k' w] o IH]; cbn [set fmap list_fmap fst].
  - by rewrite decide_False by apply not_elem_of_nil.
  - destruct (decide (k' = k)) as [->|Hne]; cbn [fmap list_fmap fst].
    + by rewrite decide_True by left.
    + fold (fmap (M := list) (@fst string value)) in *. rewrite IH.
      destruct (decide (k ∈ o.*1)) as [Hin|Hout].
      * by rewrite decide_True by (by right).
      * rewrite decide_False; [done|].
        intros [?|?]%elem_of_cons; congruence.
Qed.


End Objects.

(** ** Splitting a configuration *)

Section Split.

Variable this : StencilConfigManager.








End Split.

(** ** Running the methods *)

Lemma bind_Return {A B} (m : M A) (k : A → M B) (w w' : world) (a : A) :
  m w = (Return a, w') → (m ≫= k) w = k a w'.
Proof. unfold mbind, M_bind, bind. by intros ->. Qed.

Lemma bind_Throw {A B} (m : M A) (k : A → M B) (w w' : world) (e : error) :
  m w = (Throw e, w') → (m ≫= k) w = (Throw e, w').
Proof. unfold mbind, M_bind, bind. by intros ->. Qed.

Lemma writeFile_run (p data : string) (w : world) :
  files w !! p ≠ Some Dir →
  fs.writeFile (Some p) data w = (Return tt, with_files (<[p := File data]> (files w)) w).
Proof. unfold fs.writeFile. by destruct (files w !! p) as [[|]|]. Qed.

Lemma writeFile_Dir (p data : string) (w : world) :
  files w !! p = Some Dir →
  fs.writeFile (Some p) data w = (Throw (EISDIR p), w).
Proof. unfold fs.writeFile. by intros ->. Qed.

Lemma file_text_insert (p : string) (content : string) (f : gmap string node) (w : world) :
  file_text (with_files (<[p := File content]> f) w) p = content.
Proof. unfold file_text. cbn [files with_files]. by rewrite lookup_insert_eq. Qed.

Lemma file_text_insert_ne (p p' : string) (n : node) (f : gmap string node) (w : world) :
  p ≠ p' →
  file_text (with_files (<[p' := n]> f) w) p = file_text (with_files f w) p.
Proof. intros Hne. unfold file_text. cbn [files with_files]. by rewrite lookup_insert_ne. Qed.

Lemma file_text_with_files (p : string) (w : world) :
  file_text (with_files (files w) w) p = file_text w p.
Proof. done. Qed.

(** An upsert without a path stops at [openSync] and changes nothing. *)
Lemma upsert_undefined (this : StencilConfigManager) key value (w : world) :
  _setEnvValueToFile this key value None w = (Throw ERR_INVALID_ARG_TYPE, w).
Proof. done. Qed.

Section Save.

Variable this : StencilConfigManager.
Variable config : object.

(** A save to an environment file at [p]: the general file is written,
    then the two upserts rewrite the environment file in turn. *)
Lemma save_run (p : string) (w : world) :
  files w !! configPath this ≠ Some Dir →
  files w !! p ≠ Some Dir →
  p ≠ configPath this →
  save this config (Some p) w =
    (Return tt,
     with_files
       (<[p := File (upsert_text (EOL this) "STENCIL_GITHUB_TOKEN"
                       (get "githubToken" (secretsConfig (_splitStencilConfig this config)))
                       (upsert_text (EOL this) "STENCIL_ACCESS_TOKEN"
                          (get "accessToken" (secretsConfig (_splitStencilConfig this config)))
                          (file_text w p)))]>
          (<[configPath this := File (JSON.stringify
                     (VObj (generalConfig (_splitStencilConfig this config))))]> (files w)))
       w).
Proof.
  intros Hcfg Hp Hne. unfold save.
  erewrite bind_Return by (by apply writeFile_run).
  erewrite bind_Return.
  2:{ apply upsert_run. cbn [files with_files]. by rewrite lookup_insert_ne. }
  rewrite upsert_run.
  2:{ cbn [files with_files]. by rewrite lookup_insert_eq. }
  rewrite file_text_insert, file_text_insert_ne, file_text_with_files by done.
  unfold with_files; cbn [files process_env console].
  by rewrite insert_insert_eq.
Qed.

(** A save without an environment file writes the general file and then
    throws. *)
Lemma save_undefined (w : world) :
  files w !! configPath this ≠ Some Dir →
  save this config None w =
    (Throw ERR_INVALID_ARG_TYPE,
     with_files (<[configPath this := File (JSON.stringify
                     (VObj (generalConfig (_splitStencilConfig this config))))]> (files w)) w).
Proof.
  intros Hcfg. unfold save.
  erewrite bind_Return by (by apply writeFile_run).
  by erewrite bind_Throw by apply upsert_undefined.
Qed.

Lemma save_undefined_Dir (w : world) :
  files w !! configPath this = Some Dir →
  save this config None w = (Throw (EISDIR (configPath this)), w).
Proof.
  intros Hcfg. unfold save. by erewrite bind_Throw by (by apply writeFile_Dir).
Qed.

(** Whatever a save without an environment file does, it throws and
    leaves every file but the general one as it was. *)
Lemma save_undefined_frame (w : world) :
  ∃ e w', save this config None w = (Throw e, w')
          ∧ ∀ p, p ≠ configPath this → files w' !! p = files w !! p.
Proof.
  destruct (files w !! configPath this) as [[content|]|] eqn:Hd.
  2:{ rewrite (save_undefined_Dir _ Hd). eauto. }
  all: rewrite save_undefined by (by rewrite Hd); do 2 eexists; (split; [done|]).
  all: intros p Hp; cbn [files with_files]; by rewrite lookup_insert_ne.
Qed.

End Save.

Section Read.

Variable API_HOST : string.
Variable parseJson : string → option object.
Variable this : StencilConfigManager.

Lemma validate_run (config : object) (ignoreMissingFields : bool) (w : world) :
  _validateStencilConfig API_HOST config ignoreMissingFields w =
    if negb ignoreMissingFields &&
       (negb (truthy (get "normalStoreUrl" config)) ||
        negb (truthy (get "customLayouts" config)))
    then (Throw ConfigOutdated, w)
    else if negb (truthy (get "apiHost" config))
    then (Return (set "apiHost" (VStr API_HOST) config),
          World (files w) (process_env w) (console w ++ [ApiHostFallbackNotice]))
    else (Return config, w).
Proof. unfold _validateStencilConfig. by repeat case_match. Qed.

Lemma secrets_run (w : world) :
  _getSecretsConfigFromEnvVars w =
    (Return (VObj [("accessToken", env_or_null (process_env w !! "STENCIL_ACCESS_TOKEN"));
                   ("githubToken", env_or_null (process_env w !! "STENCIL_GITHUB_TOKEN"))]),
     w).
Proof. done. Qed.

Lemma existsSync_run (p : string) (w : world) :
  fs.existsSync (Some p) w = (Return (bool_decide (is_Some (files w !! p))), w).
Proof. done. Qed.

Lemma parseJsonFile_run (p content : string) (o : object) (w : world) :
  files w !! p = Some (File content) → parseJson content = Some o →
  parseJsonFile parseJson p w = (Return o, w).
Proof.
  intros Hp Ho. unfold parseJsonFile, fs.readFileSync, mbind, M_bind, bind.
  by rewrite Hp, Ho.
Qed.

(** The branch of [read] for a project without a legacy file: the general
    configuration, when its file exists, is merged with the secrets of the
    environment and validated. *)
Lemma read_current (general : value) (inf imf : bool) (w : world) :
  files w !! oldConfigPath this = None →
  (files w !! configPath this = None ∧ general = VNull
   ∨ ∃ content o, files w !! configPath this = Some (File content)
                  ∧ parseJson content = Some o ∧ general = VObj o) →
  read API_HOST parseJson this inf imf w =
    (config ← _validateStencilConfig API_HOST
                (spread general
                   (VObj [("accessToken", env_or_null (process_env w !! "STENCIL_ACCESS_TOKEN"));
                          ("githubToken", env_or_null (process_env w !! "STENCIL_GITHUB_TOKEN"))]))
                imf;
     mret (VObj config)) w.
Proof.
  intros Hold Hcfg. unfold read.
  erewrite bind_Return by apply existsSync_run.
  rewrite Hold, bool_decide_false by (by intros [? ?]).
  erewrite bind_Return by apply existsSync_run.
  destruct Hcfg as [[Hnone ->]|(content & o & Hfile & Hparse & ->)].
  - rewrite Hnone, bool_decide_false by (by intros [? ?]).
    erewrite bind_Return by done.
    erewrite bind_Return by apply secrets_run. done.
  - rewrite Hfile, bool_decide_true by eauto.
    erewrite bind_Return.
    2:{ erewrite bind_Return by (by eapply parseJsonFile_run). done. }
    erewrite bind_Return by apply secrets_run. done.
Qed.

End Read.

(** ** The environment file after a save *)

(** After a save the environment file is a number of blank lines and the
    line of the second upsert. *)
Lemma save_env_file_shape (this : StencilConfigManager) (config : object)
    (p : string) (w : world) :
  files w !! configPath this ≠ Some Dir →
  files w !! p ≠ Some Dir →
  p ≠ configPath this →
  ∃ k, file_text (save this config (Some p) w).2 p
       = Js.join (EOL this)
           (replicate k "" ++
            ["STENCIL_GITHUB_TOKEN=" +:+
             value_or_empty (get "githubToken"
                               (secretsConfig (_splitStencilConfig this config)))]).
Proof.
  intros Hcfg Hp Hne. rewrite save_run by done. cbn [snd].
  rewrite file_text_insert. apply upsert_text_shape.
Qed.

(** C1 (the code departs from the claim).  On a project without files, the
    first upsert of a save of [{accessToken: "abc", githubToken: "ghp"}]
    leaves a blank line and the line [STENCIL_ACCESS_TOKEN=abc]; after the
    whole save the environment file holds a blank line and
    [STENCIL_GITHUB_TOKEN=ghp] only: the line of the first upsert does not
    outlive the second. *)
Theorem C1_save_drops_access_token_line :
  let first := Scenario.upsert "STENCIL_ACCESS_TOKEN" "abc" Scenario.bare in
  let saved := save Scenario.manager Scenario.tokens_config
                 (Some Scenario.env_file) Scenario.bare in
  first.1 = Return tt
  ∧ Scenario.env_lines first.2 = [""; "STENCIL_ACCESS_TOKEN=abc"]
  ∧ saved.1 = Return tt
  ∧ Scenario.env_lines saved.2 = [""; "STENCIL_GITHUB_TOKEN=ghp"]
  ∧ lines_for Scenario.nl "STENCIL_ACCESS_TOKEN"
      (file_text saved.2 Scenario.env_file) = [].
Proof. vm_compute. done. Qed.

(** C2 (the code departs from the claim).  On the file of the three lines
    [A=1], blank, [B=2], the upsert of [B=3] keeps the blank line alone and
    appends: the file becomes a blank line and [B=3].  As the
    specification words it the file would become [A=1], [B=3]. *)
Theorem C2_upsert_keeps_only_blank_lines :
  let before := "A=1" +:+ Scenario.nl +:+ Scenario.nl +:+ "B=2" in
  let run := Scenario.upsert "B" "3"
               (Scenario.with_file Scenario.env_file before Scenario.bare) in
  Js.split Scenario.nl before = ["A=1"; ""; "B=2"]
  ∧ run.1 = Return tt
  ∧ Scenario.env_lines run.2 = [""; "B=3"]
  ∧ Js.split Scenario.nl
      (specified_upsert_text Scenario.nl "B" (Some (VStr "3")) before)
    = ["A=1"; "B=3"].
Proof. vm_compute. done. Qed.

(** With the filter as the specification words it, an upsert replaces the
    first line for the key only: of two lines for the key the second one
    stays. *)
Example specified_upsert_replaces_first_line :
  Js.split Scenario.nl
    (specified_upsert_text Scenario.nl "K" (Some (VStr "v"))
       ("K=1" +:+ Scenario.nl +:+ "K=2"))
  = ["K=v"; "K=2"].
Proof. vm_compute. done. Qed.




(** C8 (the code departs from the claim).  The pattern of
    [STENCIL_ACCESS_TOKEN] does not match the line
    [# STENCIL_ACCESS_TOKEN=old]; yet the upsert on a file of that one line
    leaves the single line [STENCIL_ACCESS_TOKEN=new]: the commented line
    is not kept.  As the specification words it both lines would be
    there. *)
Theorem C8_commented_line_is_dropped :
  let before := "# STENCIL_ACCESS_TOKEN=old" in
  let run := Scenario.upsert "STENCIL_ACCESS_TOKEN" "new"
               (Scenario.with_file Scenario.env_file before Scenario.bare) in
  key_pattern_matches "STENCIL_ACCESS_TOKEN" before = false
  ∧ run.1 = Return tt
  ∧ Scenario.env_lines run.2 = ["STENCIL_ACCESS_TOKEN=new"]
  ∧ Js.split Scenario.nl
      (specified_upsert_text Scenario.nl "STENCIL_ACCESS_TOKEN" (Some (VStr "new")) before)
    = ["# STENCIL_ACCESS_TOKEN=old"; "STENCIL_ACCESS_TOKEN=new"].
Proof. vm_compute. done. Qed.

(** ** Validation *)

(** C9.  Without [ignoreMissingFields], validation throws the
    outdated-configuration error exactly when [normalStoreUrl] or
    [customLayouts] is absent or falsy, and returns a configuration exactly
    when both are truthy; with [ignoreMissingFields] it always returns a
    configuration. *)
Theorem C9_required_fields (API_HOST : string) (config : object) (w : world) :
  ((∃ w', _validateStencilConfig API_HOST config false w = (Throw ConfigOutdated, w'))
   ↔ truthy (get "normalStoreUrl" config) = false
     ∨ truthy (get "customLayouts" config) = false)
  ∧ ((∃ c w', _validateStencilConfig API_HOST config false w = (Return c, w'))
     ↔ truthy (get "normalStoreUrl" config) = true
       ∧ truthy (get "customLayouts" config) = true)
  ∧ (∃ c w', _validateStencilConfig API_HOST config true w = (Return c, w')).
Proof.
  rewrite !validate_run. cbn [negb andb].
  destruct (truthy (get "normalStoreUrl" config)),
           (truthy (get "customLayouts" config)),
           (truthy (get "apiHost" config)); cbn [negb orb].
  all: split_and!; [split | split | by eauto].
  all: try (by intros (? & ?)); try (by intros (? & ? & ?)); try (by intros [?|?]).
  all: eauto.
Qed.

(** ** Secrets of the environment *)

Lemma env_or_null_empty : env_or_null (Some "") = env_or_null None.
Proof. done. Qed.

Lemma env_or_null_not_empty (v : option string) : env_or_null v ≠ VStr "".
Proof.
  destruct v as [s|]; [|done]. unfold env_or_null.
  case_bool_decide; [done|]. congruence.
Qed.

Lemma env_or_null_VNull (v : option string) :
  v = Some "" ∨ v = None ↔ env_or_null v = VNull.
Proof.
  destruct v as [s|]; unfold env_or_null; [|by split; [|right]].
  case_bool_decide as Hs; [subst s; by split; [|left]|].
  split; [|done]. intros [[= ->]|[=]]. done.
Qed.

Lemma env_or_null_unset_empty (env : gmap string string) (name : string) :
  env_or_null (unset_empty env !! name) = env_or_null (env !! name).
Proof.
  unfold unset_empty. rewrite map_lookup_filter.
  destruct (env !! name) as [s|]; cbn; [|done].
  case_guard as Hs; cbn in *; [done|].
  by subst s.
Qed.

Lemma get_spread_secret (general : value) (a g : value) :
  get "accessToken" (spread general (VObj [("accessToken", a); ("githubToken", g)])) = Some a
  ∧ get "githubToken" (spread general (VObj [("accessToken", a); ("githubToken", g)])) = Some g.
Proof.
  unfold spread. rewrite fold_left_app. cbn [entries_of fold_left fst snd].
  split.
  - by rewrite get_set_ne, get_set_eq.
  - by rewrite get_set_eq.
Qed.

(** C10.  Without a legacy file, the secrets object is an object of the two
    fields, truthy for every environment, and no field of it is the empty
    string; a token variable set to the empty string gives the null field
    that an unset variable gives, and [read] answers on such an environment
    what it answers once these variables are unset; a configuration that
    [read] returns carries in [accessToken] and [githubToken] the fields of
    the secrets object. *)
Theorem C10_empty_variable_is_unset (API_HOST : string)
    (parseJson : string → option object) (this : StencilConfigManager)
    (inf imf : bool) (w : world) :
  files w !! oldConfigPath this = None →
  ∃ a g,
    _getSecretsConfigFromEnvVars w
      = (Return (VObj [("accessToken", a); ("githubToken", g)]), w)
    ∧ truthy (Some (VObj [("accessToken", a); ("githubToken", g)])) = true
    ∧ a ≠ VStr "" ∧ g ≠ VStr ""
    ∧ (process_env w !! "STENCIL_ACCESS_TOKEN" = Some "" ∨
       process_env w !! "STENCIL_ACCESS_TOKEN" = None ↔ a = VNull)
    ∧ (process_env w !! "STENCIL_GITHUB_TOKEN" = Some "" ∨
       process_env w !! "STENCIL_GITHUB_TOKEN" = None ↔ g = VNull)
    ∧ (read API_HOST parseJson this inf imf w).1
      = (read API_HOST parseJson this inf imf
           (with_env (unset_empty (process_env w)) w)).1
    ∧ ∀ c w', read API_HOST parseJson this inf imf w = (Return (VObj c), w') →
              get "accessToken" c = Some a ∧ get "githubToken" c = Some g.
Proof.
  intros Hold.
  exists (env_or_null (process_env w !! "STENCIL_ACCESS_TOKEN")),
         (env_or_null (process_env w !! "STENCIL_GITHUB_TOKEN")).
  split; [done|]. split; [done|].
  split; [apply env_or_null_not_empty|]. split; [apply env_or_null_not_empty|].
  split.
  { apply env_or_null_VNull. }
  split.
  { apply env_or_null_VNull. }
  set (secrets := VObj [("accessToken", env_or_null (process_env w !! "STENCIL_ACCESS_TOKEN"));
                        ("githubToken", env_or_null (process_env w !! "STENCIL_GITHUB_TOKEN"))]).
  assert (Hread : ∀ general,
    (files w !! configPath this = None ∧ general = VNull
     ∨ ∃ content o, files w !! configPath this = Some (File content)
                    ∧ parseJson content = Some o ∧ general = VObj o) →
    (read API_HOST parseJson this inf imf w).1
    = (read API_HOST parseJson this inf imf
         (with_env (unset_empty (process_env w)) w)).1
    ∧ ∀ c w', read API_HOST parseJson this inf imf w = (Return (VObj c), w') →
              get "accessToken" c = Some (env_or_null (process_env w !! "STENCIL_ACCESS_TOKEN"))
              ∧ get "githubToken" c = Some (env_or_null (process_env w !! "STENCIL_GITHUB_TOKEN"))).
  { intros general Hgeneral.
    rewrite (read_current API_HOST parseJson this general inf imf w Hold Hgeneral).
    rewrite (read_current API_HOST parseJson this general inf imf
               (with_env (unset_empty (process_env w)) w) Hold Hgeneral).
    cbn [process_env with_env]. rewrite !env_or_null_unset_empty. fold secrets.
    unfold mbind, M_bind, bind. rewrite !validate_run.
    destruct (get_spread_secret general
                (env_or_null (process_env w !! "STENCIL_ACCESS_TOKEN"))
                (env_or_null (process_env w !! "STENCIL_GITHUB_TOKEN"))) as [Ha Hg].
    fold secrets in Ha, Hg.
    destruct (negb imf && _); [split; [done|]; by intros c w' Hc|].
    destruct (negb (truthy (get "apiHost" (spread general secrets)))).
    all: split; [done|]; intros c w' Hc; unfold mret, M_ret, ret in Hc; simplify_eq.
    all: by rewrite ?get_set_ne by done. }
  destruct (files w !! configPath this) as [[content|]|] eqn:Hcfg.
  - destruct (parseJson content) as [o|] eqn:Hparse.
    + apply (Hread (VObj o)). right. eauto.
    + (* the general file does not parse: [read] throws in both worlds *)
      assert (Hthrow : ∀ env, read API_HOST parseJson this inf imf (with_env env w)
                              = (Throw (JsonParseError (configPath this)), with_env env w)).
      { intros env. unfold read.
        erewrite bind_Return by apply existsSync_run.
        cbn [files with_env]. rewrite Hold, bool_decide_false by (by intros [? ?]).
        erewrite bind_Return by apply existsSync_run.
        cbn [files with_env]. rewrite Hcfg, bool_decide_true by eauto.
        erewrite bind_Throw; [done|].
        erewrite bind_Throw; [done|].
        unfold parseJsonFile, fs.readFileSync, mbind, M_bind, bind.
        cbn [files with_env]. by rewrite Hcfg, Hparse. }
      pose proof (Hthrow (process_env w)) as H1.
      replace (with_env (process_env w) w) with w in H1 by (by destruct w).
      rewrite H1, Hthrow. split; [done|]. intros c w' Hc. discriminate.
  - assert (Hthrow : ∀ env, read API_HOST parseJson this inf imf (with_env env w)
                            = (Throw (EISDIR (configPath this)), with_env env w)).
    { intros env. unfold read.
      erewrite bind_Return by apply existsSync_run.
      cbn [files with_env]. rewrite Hold, bool_decide_false by (by intros [? ?]).
      erewrite bind_Return by apply existsSync_run.
      cbn [files with_env]. rewrite Hcfg, bool_decide_true by eauto.
      erewrite bind_Throw; [done|].
      erewrite bind_Throw; [done|].
      unfold parseJsonFile, fs.readFileSync, mbind, M_bind, bind.
      cbn [files with_env]. by rewrite Hcfg. }
    pose proof (Hthrow (process_env w)) as H1.
    replace (with_env (process_env w) w) with w in H1 by (by destruct w).
    rewrite H1, Hthrow. split; [done|]. intros c w' Hc. discriminate.
  - apply (Hread VNull). by left.
Qed.

(** A project read with an empty access token in the environment. *)
Lemma C10_empty_variable_is_unset_witness :
  files Scenario.empty_token_project !! oldConfigPath Scenario.manager = None
  ∧ (Scenario.run_read true true Scenario.empty_token_project).1
    = Return (VObj [("accessToken", VNull); ("githubToken", VStr "ghp");
                    ("apiHost", VStr Scenario.api_host)])
  ∧ ∃ a g,
      _getSecretsConfigFromEnvVars Scenario.empty_token_project
      = (Return (VObj [("accessToken", a); ("githubToken", g)]),
         Scenario.empty_token_project)
      ∧ a = VNull.
Proof.
  split; [reflexivity|]. split; [vm_compute; reflexivity|].
  destruct (C10_empty_variable_is_unset Scenario.api_host JsonText.parse
              Scenario.manager true true Scenario.empty_token_project eq_refl)
    as (a & g & Hsecrets & _ & _ & _ & Ha & _).
  exists a, g. split; [exact Hsecrets|]. apply Ha. left. reflexivity.
Defined.

(** ** Reading a project without files *)

(** C4 (the code departs from the claim).  With no legacy file, no general
    file and neither token variable set, [read] does not look at
    [ignoreFileNotExists]: the secrets object is truthy, so the merged
    configuration of two null tokens is validated.  Without
    [ignoreMissingFields] the outdated-configuration error is thrown; with
    it that configuration is returned with the default API host.  [read]
    neither answers null nor throws the error of the uninitialised
    project. *)
Theorem C4_read_without_files (API_HOST : string)
    (parseJson : string → option object) (this : StencilConfigManager)
    (inf imf : bool) (w : world) :
  files w !! oldConfigPath this = None →
  files w !! configPath this = None →
  process_env w !! "STENCIL_ACCESS_TOKEN" = None →
  process_env w !! "STENCIL_GITHUB_TOKEN" = None →
  read API_HOST parseJson this inf imf w =
    if imf
    then (Return (VObj [("accessToken", VNull); ("githubToken", VNull);
                        ("apiHost", VStr API_HOST)]),
          World (files w) (process_env w) (console w ++ [ApiHostFallbackNotice]))
    else (Throw ConfigOutdated, w).
Proof.
  intros Hold Hcfg Hat Hgh.
  rewrite (read_current API_HOST parseJson this VNull inf imf w Hold) by (by left).
  rewrite Hat, Hgh. unfold mbind, M_bind, bind. rewrite validate_run.
  by destruct imf.
Qed.

(** The project without files, read with and without [ignoreFileNotExists]. *)
Lemma C4_read_without_files_witness :
  files Scenario.bare !! oldConfigPath Scenario.manager = None
  ∧ files Scenario.bare !! configPath Scenario.manager = None
  ∧ process_env Scenario.bare !! "STENCIL_ACCESS_TOKEN" = None
  ∧ process_env Scenario.bare !! "STENCIL_GITHUB_TOKEN" = None
  ∧ Scenario.run_read true false Scenario.bare = (Throw ConfigOutdated, Scenario.bare)
  ∧ Scenario.run_read false false Scenario.bare = (Throw ConfigOutdated, Scenario.bare).
Proof.
  do 4 (split; [reflexivity|]). split.
  - apply (C4_read_without_files Scenario.api_host JsonText.parse Scenario.manager
             true false Scenario.bare); reflexivity.
  - apply (C4_read_without_files Scenario.api_host JsonText.parse Scenario.manager
             false false Scenario.bare); reflexivity.
Defined.

(** ** Migration *)

Lemma new_paths_differ (themePath eol : string) :
  oldConfigPath (new themePath eol) ≠ configPath (new themePath eol).
Proof.
  cbn [oldConfigPath configPath new].
  by intros H%path_join_inj; [|apply file_name_old|apply file_name_general].
Qed.

(** C6.  If the save of the migration throws, the migration throws the same
    error in the same world, without going on to the deletion, and the
    legacy file is as it was before the migration. *)
Theorem C6_failed_save_keeps_legacy_file (themePath eol : string)
    (config : object) (w w' : world) (e : error) :
  save (new themePath eol) config None (log DeprecatedFileNotice w).2 = (Throw e, w') →
  _migrateOldConfig (new themePath eol) config w = (Throw e, w')
  ∧ files w' !! oldConfigPath (new themePath eol)
    = files w !! oldConfigPath (new themePath eol).
Proof.
  intros Hsave. split.
  - unfold _migrateOldConfig.
    erewrite bind_Return by reflexivity.
    by erewrite bind_Throw by exact Hsave.
  - destruct (save_undefined_frame (new themePath eol) config
                (log DeprecatedFileNotice w).2) as (e0 & w0 & Hrun & Hframe).
    rewrite Hrun in Hsave. simplify_eq.
    rewrite Hframe by apply new_paths_differ. done.
Qed.

(** A migration whose save fails on a directory in the place of the
    general file. *)
Lemma C6_failed_save_keeps_legacy_file_witness :
  save Scenario.manager Scenario.legacy_config None
    (log DeprecatedFileNotice Scenario.blocked_project).2
  = (Throw (EISDIR (configPath Scenario.manager)),
     (log DeprecatedFileNotice Scenario.blocked_project).2)
  ∧ (_migrateOldConfig Scenario.manager Scenario.legacy_config
       Scenario.blocked_project).1
    = Throw (EISDIR (configPath Scenario.manager))
  ∧ files (_migrateOldConfig Scenario.manager Scenario.legacy_config
             Scenario.blocked_project).2 !! oldConfigPath Scenario.manager
    = Some (File Scenario.legacy_text).
Proof.
  assert (Hsave :
    save Scenario.manager Scenario.legacy_config None
      (log DeprecatedFileNotice Scenario.blocked_project).2
    = (Throw (EISDIR (configPath Scenario.manager)),
       (log DeprecatedFileNotice Scenario.blocked_project).2))
    by (vm_compute; reflexivity).
  split; [exact Hsave|].
  destruct (C6_failed_save_keeps_legacy_file "/theme" Scenario.nl
              Scenario.legacy_config Scenario.blocked_project _ _ Hsave)
    as [Hrun Hkept].
  fold Scenario.manager in Hrun, Hkept.
  rewrite Hrun. split; [reflexivity|]. cbn [snd]. rewrite Hkept.
  vm_compute. reflexivity.
Defined.

(** The secret fields are set apart whatever the theme directory. *)
Lemma split_legacy_config (themePath eol : string) :
  generalConfig (_splitStencilConfig (new themePath eol) Scenario.legacy_config)
  = [("normalStoreUrl", VStr "http://x"); ("customLayouts", VBool true)].
Proof. reflexivity. Qed.

(** Reading a project with a legacy file: the file is parsed, an unreadable
    one counting as the empty configuration, and migrated. *)
Lemma read_legacy_run (API_HOST : string) (parseJson : string → option object)
    (this : StencilConfigManager) (inf imf : bool) (text : string) (w : world) :
  files w !! oldConfigPath this = Some (File text) →
  read API_HOST parseJson this inf imf w =
    (_migrateOldConfig this (default [] (parseJson text));;
     config ← _validateStencilConfig API_HOST (default [] (parseJson text)) imf;
     mret (VObj config)) w.
Proof.
  intros Hold. unfold read.
  erewrite bind_Return by apply existsSync_run.
  rewrite Hold, bool_decide_true by eauto.
  erewrite bind_Return; [done|].
  unfold try_catch, parseJsonFile, fs.readFileSync, mbind, M_bind, bind.
  rewrite Hold. by destruct (parseJson text).
Qed.

(** The migration saves without an environment file: it writes the general
    file, stops at the first upsert and does not reach the deletion. *)
Lemma migrate_run (this : StencilConfigManager) (config : object) (w : world) :
  files w !! configPath this ≠ Some Dir →
  _migrateOldConfig this config w =
    (Throw ERR_INVALID_ARG_TYPE,
     World (<[configPath this :=
                File (JSON.stringify
                        (VObj (generalConfig (_splitStencilConfig this config))))]>
              (files w))
           (process_env w) (console w ++ [DeprecatedFileNotice])).
Proof.
  intros Hcfg. unfold _migrateOldConfig.
  erewrite bind_Return by reflexivity. cbv beta.
  erewrite bind_Throw; [done|].
  by rewrite save_undefined.
Qed.

(** C5, as amended.  When the legacy file holds the configuration of the
    scenario and there is no general file, [read] writes the general file
    with [normalStoreUrl] and [customLayouts] and nothing else: the default
    API host is not written, validation coming after the save of the
    migration. *)
Theorem C5_migration_writes_general_file (API_HOST : string)
    (parseJson : string → option object) (themePath eol text : string)
    (inf imf : bool) (w : world) :
  files w !! oldConfigPath (new themePath eol) = Some (File text) →
  parseJson text = Some Scenario.legacy_config →
  files w !! configPath (new themePath eol) = None →
  files (read API_HOST parseJson (new themePath eol) inf imf w).2
    !! configPath (new themePath eol)
  = Some (File (JSON.stringify
                  (VObj [("normalStoreUrl", VStr "http://x");
                         ("customLayouts", VBool true)]))).
Proof.
  intros Hold Hparse Hcfg.
  rewrite (read_legacy_run _ _ _ _ _ text) by done.
  rewrite Hparse. cbn [default].
  erewrite bind_Throw by (apply migrate_run; by rewrite Hcfg).
  cbn [snd files]. by rewrite lookup_insert_eq, split_legacy_config.
Qed.

(** The migration scenario, with the text that the general file receives. *)
Lemma C5_migration_writes_general_file_witness :
  files Scenario.legacy_project !! oldConfigPath Scenario.manager
  = Some (File Scenario.legacy_text)
  ∧ JsonText.parse Scenario.legacy_text = Some Scenario.legacy_config
  ∧ files Scenario.legacy_project !! configPath Scenario.manager = None
  ∧ files (Scenario.run_read false false Scenario.legacy_project).2
      !! configPath Scenario.manager
    = Some (File ("{" +:+ Scenario.nl +:+
                  "  " +:+ Scenario.quoted "normalStoreUrl" +:+ ": " +:+
                  Scenario.quoted "http://x" +:+ "," +:+ Scenario.nl +:+
                  "  " +:+ Scenario.quoted "customLayouts" +:+ ": true" +:+
                  Scenario.nl +:+ "}")).
Proof.
  do 3 (split; [vm_compute; reflexivity|]).
  unfold Scenario.run_read, Scenario.manager.
  rewrite (C5_migration_writes_general_file Scenario.api_host JsonText.parse
             "/theme" Scenario.nl Scenario.legacy_text false false
             Scenario.legacy_project);
    vm_compute; reflexivity.
Defined.

(** C5, as stated, fails: in the scenario the general file that [read]
    leaves denotes the object of [normalStoreUrl] and [customLayouts]
    alone, without an API host; it is not the serialisation of the object
    with the default API host. *)
Lemma C5_counterexample :
  JsonText.parse
    (file_text (Scenario.run_read false false Scenario.legacy_project).2
       (configPath Scenario.manager))
  = Some [("normalStoreUrl", VStr "http://x"); ("customLayouts", VBool true)]
  ∧ files (Scenario.run_read false false Scenario.legacy_project).2
      !! configPath Scenario.manager
    ≠ Some (File (JSON.stringify
                    (VObj [("normalStoreUrl", VStr "http://x");
                           ("customLayouts", VBool true);
                           ("apiHost", VStr Scenario.api_host)]))).
Proof. vm_compute. split; [done|discriminate]. Qed.

(** ** Saving, then reading *)



Lemma get_spread_general (k : string) (general : object) (a g : value) :
  NoDup general.*1 →
  k ≠ "accessToken" → k ≠ "githubToken" →
  get k (spread (VObj general) (VObj [("accessToken", a); ("githubToken", g)]))
  = get k general.
Proof.
  intros Hnd Ha Hg. unfold spread. rewrite fold_left_app.
  cbn [entries_of fold_left fst snd].
  rewrite !get_set_ne, get_fold_set by done.
  by destruct (get k general).
Qed.




(** ** Further properties: the constructor and the split *)

(** [path.join] on some directories and names. *)
Example path_join_examples :
  path_join "/theme" ".stencil" = "/theme/.stencil"
  ∧ path_join "" ".stencil" = ".stencil"
  ∧ path_join "/theme/" ".stencil" = "/theme/.stencil"
  ∧ path_join "/" ".stencil" = "/.stencil"
  ∧ path_join "." ".stencil" = ".stencil"
  ∧ path_join "a/../b//c/." "x" = "b/c/x"
  ∧ path_join "/.." "x" = "/x"
  ∧ path_join ".." "../x" = "../../x"
  ∧ path_join "a" ".." = "."
  ∧ path_join "a/" "../" = "./"
  ∧ path_join "/theme" "sub/my.json" = "/theme/sub/my.json".
Proof. vm_compute. done. Qed.

(** Whatever the theme directory, the three paths of a manager are the
    three file names behind one prefix, and so three different paths.  The
    prefix is the theme directory and a separator when the directory is
    made of file names, from the root or not. *)
Theorem new_paths_distinct (themePath eol : string) :
  oldConfigPath (new themePath eol) ≠ configPath (new themePath eol)
  ∧ oldConfigPath (new themePath eol) ≠ secretsPath (new themePath eol)
  ∧ configPath (new themePath eol) ≠ secretsPath (new themePath eol)
  ∧ oldConfigPath (new themePath eol) = dir_prefix themePath +:+ ".stencil"
  ∧ configPath (new themePath eol) = dir_prefix themePath +:+ "config.stencil.json"
  ∧ secretsPath (new themePath eol) = dir_prefix themePath +:+ "secrets.stencil.json"
  ∧ ∀ (absolute : bool) (segments : list string),
      segments ≠ [] → Forall file_name segments →
      themePath = directory absolute segments →
      dir_prefix themePath = themePath +:+ "/".
Proof.
  cbn [oldConfigPath configPath secretsPath new].
  pose proof file_name_old. pose proof file_name_general.
  pose proof file_name_secrets.
  split_and!; try (by intros ?%path_join_inj); try (by apply path_join_file_name).
  intros absolute segments Hne Hall ->. by apply dir_prefix_directory.
Qed.

(** The paths of the manager of [/theme]. *)
Lemma new_paths_distinct_witness :
  oldConfigPath (new "/theme" Scenario.nl) = "/theme/.stencil"
  ∧ configPath (new "/theme" Scenario.nl) = "/theme/config.stencil.json"
  ∧ secretsPath (new "/theme" Scenario.nl) = "/theme/secrets.stencil.json".
Proof.
  destruct (new_paths_distinct "/theme" Scenario.nl)
    as (_ & _ & _ & Hold & Hgeneral & Hsecrets & Hprefix).
  rewrite Hold, Hgeneral, Hsecrets, (Hprefix true ["theme"]).
  - split_and!; reflexivity.
  - discriminate.
  - repeat constructor; discriminate.
  - reflexivity.
Defined.

(** The general path for an empty theme directory, for the root and for a
    theme directory with a trailing separator. *)
Example new_paths_examples :
  configPath (new "" Scenario.nl) = "config.stencil.json"
  ∧ configPath (new "/" Scenario.nl) = "/config.stencil.json"
  ∧ configPath (new "/theme/" Scenario.nl) = "/theme/config.stencil.json".
Proof. vm_compute. done. Qed.

Lemma set_fresh (k : string) (v : value) (o : object) :
  k ∉ o.*1 → set k v o = o ++ [(k, v)].
Proof.
  induction o as [|[k' w] o IH]; [done|].
  cbn [fmap list_fmap fst]. intros [Hne Hk]%not_elem_of_cons.
  cbn [set app]. rewrite decide_False by done. by rewrite IH.
Qed.

Lemma split_fold_order (this : StencilConfigManager) (config : object)
    (res : split_config) :
  NoDup config.*1 →
  (∀ k, k ∈ config.*1 →
        (k ∉ (generalConfig res).*1) ∧ (k ∉ (secretsConfig res).*1)) →
  fold_left (split_reducer this) config res
  = {| secretsConfig := secretsConfig res ++ secret_fields this config;
       generalConfig := generalConfig res ++ plain_fields_of this config |}.
Proof.
  revert res. induction config as [|[k v] config IH]; intros res Hnd Hfresh.
  - cbn. rewrite !app_nil_r. by destruct res.
  - cbn [fmap list_fmap fst] in Hnd, Hfresh. apply NoDup_cons in Hnd as [Hk Hnd].
    destruct (Hfresh k) as [Hg Hs]; [left|].
    cbn [fold_left]. rewrite IH; [|done|].
    + unfold secret_fields, plain_fields_of.
      cbn [List.filter split_reducer fst]. unfold assign.
      destruct (decide (k ∈ secretFieldsSet this)) as [Hin|Hout];
        destruct (decide (k = "__proto__")) as [Hproto|Hproto];
        cbn [secretsConfig generalConfig];
        rewrite ?set_fresh by done;
        repeat case_bool_decide; try tauto;
        by rewrite <- ?app_assoc.
    + intros k' Hk'. destruct (Hfresh k') as [Hg' Hs']; [by right|].
      assert (k' ≠ k) by (intros ->; done).
      cbn [split_reducer]. unfold assign.
      repeat case_decide; cbn [secretsConfig generalConfig];
        rewrite ?keys_set; repeat case_decide;
        (split; [|try done]); try done;
        rewrite elem_of_app, list_elem_of_singleton; by intros [?|?].
Qed.

Lemma split_keeps_order_parts (this : StencilConfigManager) (config : object) :
  NoDup config.*1 →
  generalConfig (_splitStencilConfig this config) = plain_fields_of this config.
Proof.
  intros Hnd. unfold _splitStencilConfig.
  rewrite split_fold_order; [done|done|].
  intros k _. cbn. split; apply not_elem_of_nil.
Qed.

(** The split of a configuration keeps the order of its fields: the general
    part is the configuration without its secret fields and without a
    field named [__proto__], the secret part is its secret fields. *)
Theorem split_keeps_order (this : StencilConfigManager) (config : object) :
  NoDup config.*1 →
  generalConfig (_splitStencilConfig this config) = plain_fields_of this config
  ∧ secretsConfig (_splitStencilConfig this config) = secret_fields this config.
Proof.
  intros Hnd. unfold _splitStencilConfig.
  rewrite split_fold_order; [done|done|].
  intros k _. cbn. split; apply not_elem_of_nil.
Qed.

(** The split of a configuration with a field named [__proto__]. *)
Lemma split_keeps_order_witness :
  NoDup Cases.proto_config.*1
  ∧ generalConfig (_splitStencilConfig Scenario.manager Cases.proto_config)
    = [("normalStoreUrl", VStr "http://x"); ("customLayouts", VBool false)]
  ∧ secretsConfig (_splitStencilConfig Scenario.manager Cases.proto_config)
    = [("accessToken", VStr "abc")].
Proof.
  assert (Hnd : NoDup Cases.proto_config.*1)
    by (apply (bool_decide_unpack _); vm_compute; exact I).
  split; [exact Hnd|].
  destruct (split_keeps_order Scenario.manager Cases.proto_config Hnd) as [Hg Hs].
  rewrite Hg, Hs. split; vm_compute; reflexivity.
Defined.

(** Whatever the configuration, no key of the general part is secret and
    every key of the secret part is. *)
Lemma split_fold_separates (this : StencilConfigManager) (config : object)
    (res : split_config) :
  Forall (fun k => k ∉ secretFieldsSet this) (generalConfig res).*1 →
  Forall (fun k => k ∈ secretFieldsSet this) (secretsConfig res).*1 →
  Forall (fun k => k ∉ secretFieldsSet this)
    (generalConfig (fold_left (split_reducer this) config res)).*1
  ∧ Forall (fun k => k ∈ secretFieldsSet this)
      (secretsConfig (fold_left (split_reducer this) config res)).*1.
Proof.
  revert res. induction config as [|[k v] config IH]; intros res Hg Hs; [done|].
  cbn [fold_left]. apply IH; cbn [split_reducer]; unfold assign;
    repeat case_decide; cbn [generalConfig secretsConfig]; try done;
    rewrite keys_set; case_decide; try done;
    apply Forall_app; split; try done; by constructor.
Qed.

Lemma split_separates (this : StencilConfigManager) (config : object) :
  Forall (fun k => k ∉ secretFieldsSet this)
    (generalConfig (_splitStencilConfig this config)).*1
  ∧ Forall (fun k => k ∈ secretFieldsSet this)
      (secretsConfig (_splitStencilConfig this config)).*1.
Proof. apply split_fold_separates; constructor. Qed.

(** ** Further properties: validation and reading *)

(** When the default API host is not empty, a configuration that validation
    returns has a truthy [apiHost] and the other fields of the
    configuration given; validation changes nothing when [apiHost] was
    truthy, never touches a file, and returns its own result unchanged,
    without a further notice. *)
Theorem validate_fills_api_host (API_HOST : string) (config c : object)
    (imf : bool) (w w' : world) :
  API_HOST ≠ "" →
  _validateStencilConfig API_HOST config imf w = (Return c, w') →
  truthy (get "apiHost" c) = true
  ∧ (∀ k, k ≠ "apiHost" → get k c = get k config)
  ∧ (truthy (get "apiHost" config) = true → c = config ∧ w' = w)
  ∧ (truthy (get "apiHost" config) = false →
     console w' = console w ++ [ApiHostFallbackNotice])
  ∧ files w' = files w
  ∧ _validateStencilConfig API_HOST c imf w' = (Return c, w').
Proof.
  intros Hhost. rewrite !validate_run.
  destruct (negb imf && _) eqn:Hreq; [done|].
  destruct (truthy (get "apiHost" config)) eqn:Hapi; cbn [negb]; intros [= <- <-].
  - rewrite Hreq, Hapi. cbn [negb]. split_and!; intros; try discriminate; try done; by split.
  - rewrite (get_set_ne "normalStoreUrl"), (get_set_ne "customLayouts") by done.
    rewrite Hreq, get_set_eq. cbn [truthy].
    rewrite bool_decide_false by done. cbn [negb].
    split_and!; intros; try discriminate; try done. by rewrite get_set_ne.
Qed.

(** Validation of a configuration without API host. *)
Lemma validate_fills_api_host_witness :
  Scenario.api_host ≠ ""
  ∧ ∃ c w', _validateStencilConfig Scenario.api_host Scenario.store_config false
              Scenario.bare = (Return c, w')
            ∧ get "apiHost" c = Some (VStr Scenario.api_host)
            ∧ get "normalStoreUrl" c = Some (VStr "http://x")
            ∧ _validateStencilConfig Scenario.api_host c false w' = (Return c, w').
Proof.
  split; [discriminate|].
  eexists _, _. split; [reflexivity|]. split; [reflexivity|]. split; [reflexivity|].
  apply (validate_fills_api_host Scenario.api_host Scenario.store_config _ false
           Scenario.bare _); [discriminate|reflexivity].
Defined.

Section ReadMore.

Variable API_HOST : string.
Variable parseJson : string → option object.
Variable this : StencilConfigManager.

Lemma save_undefined_error (config : object) (w : world) :
  (save this config None w).1 = Throw ERR_INVALID_ARG_TYPE
  ∨ (save this config None w).1 = Throw (EISDIR (configPath this)).
Proof.
  destruct (files w !! configPath this) as [[content|]|] eqn:Hd.
  2:{ rewrite (save_undefined_Dir _ _ _ Hd). by right. }
  all: rewrite save_undefined by (by rewrite Hd); by left.
Qed.

Lemma migrate_error (config : object) (w : world) :
  (_migrateOldConfig this config w).1 = Throw ERR_INVALID_ARG_TYPE
  ∨ (_migrateOldConfig this config w).1 = Throw (EISDIR (configPath this)).
Proof.
  unfold _migrateOldConfig. erewrite bind_Return by reflexivity. cbv beta.
  destruct (files w !! configPath this) as [[content|]|] eqn:Hd.
  2:{ erewrite bind_Throw by (by apply save_undefined_Dir). by right. }
  all: erewrite bind_Throw by (apply save_undefined; cbn [files log snd]; by rewrite Hd).
  all: by left.
Qed.

(** Without a legacy file, a general file that cannot be read as JSON
    makes [read] throw, in an unchanged world. *)
Lemma read_general_unreadable (inf imf : bool) (w : world) (e : error) :
  files w !! oldConfigPath this = None →
  (files w !! configPath this = Some Dir ∧ e = EISDIR (configPath this)
   ∨ ∃ content, files w !! configPath this = Some (File content)
                ∧ parseJson content = None ∧ e = JsonParseError (configPath this)) →
  read API_HOST parseJson this inf imf w = (Throw e, w).
Proof.
  intros Hold Hcfg. unfold read.
  erewrite bind_Return by apply existsSync_run.
  rewrite Hold, bool_decide_false by (by intros [? ?]).
  erewrite bind_Return by apply existsSync_run.
  rewrite bool_decide_true by (destruct Hcfg as [[-> _]|(? & -> & _)]; eauto).
  erewrite bind_Throw; [done|].
  erewrite bind_Throw; [done|].
  unfold parseJsonFile, fs.readFileSync, mbind, M_bind, bind.
  destruct Hcfg as [[-> ->]|(content & -> & -> & ->)]; done.
Qed.

Lemma validated_outcomes (config : object) (imf : bool) (w : world) :
  (∃ c, ((c ← _validateStencilConfig API_HOST config imf;
          mret (VObj c)) w).1 = Return (VObj c))
  ∨ (∃ e, ((c ← _validateStencilConfig API_HOST config imf;
            mret (VObj c)) w).1 = Throw e ∧ e ≠ PleaseRunInitFirst).
Proof.
  unfold mbind, M_bind, bind. rewrite validate_run.
  repeat case_match; simplify_eq; cbn; eauto.
Qed.

(** The outcomes of [read]: an object is returned, or one of the errors of
    the file system, of the JSON reader or of validation is thrown. *)
Lemma read_outcomes (inf imf : bool) (w : world) :
  (∃ c, (read API_HOST parseJson this inf imf w).1 = Return (VObj c))
  ∨ (∃ e, (read API_HOST parseJson this inf imf w).1 = Throw e
          ∧ e ≠ PleaseRunInitFirst).
Proof.
  destruct (files w !! oldConfigPath this) as [legacy|] eqn:Hold.
  - unfold read. erewrite bind_Return by apply existsSync_run.
    rewrite Hold, bool_decide_true by eauto.
    unfold mbind, M_bind, bind.
    destruct (@try_catch object _ _ w) as [[o|e] w1] eqn:Hparsed.
    2:{ exfalso. unfold try_catch in Hparsed.
        destruct (parseJsonFile parseJson (oldConfigPath this) w) as [[?|?] ?]; done. }
    destruct (migrate_error o w1) as [H|H];
      destruct (_migrateOldConfig this o w1) as [[?|e] w2]; cbn [fst] in H; simplify_eq;
      right; eexists; (split; [reflexivity|done]).
  - destruct (files w !! configPath this) as [[content|]|] eqn:Hcfg.
    + destruct (parseJson content) as [o|] eqn:Hparse.
      * rewrite (read_current API_HOST parseJson this (VObj o)) by (done || right; eauto).
        apply validated_outcomes.
      * rewrite (read_general_unreadable inf imf w (JsonParseError (configPath this)))
          by (done || right; eauto).
        right. eexists. by split.
    + rewrite (read_general_unreadable inf imf w (EISDIR (configPath this)))
        by (done || left; eauto).
      right. eexists. by split.
    + rewrite (read_current API_HOST parseJson this VNull) by (done || left; eauto).
      apply validated_outcomes.
Qed.

End ReadMore.

(** [read] never answers [null] and never throws the error that asks to
    run the init command, whatever the project, the environment and its two
    arguments. *)
Theorem read_never_null (API_HOST : string) (parseJson : string → option object)
    (this : StencilConfigManager) (inf imf : bool) (w : world) :
  (read API_HOST parseJson this inf imf w).1 ≠ Return VNull
  ∧ (read API_HOST parseJson this inf imf w).1 ≠ Throw PleaseRunInitFirst.
Proof.
  destruct (read_outcomes API_HOST parseJson this inf imf w) as [[c ->]|(e & -> & He)];
    split; congruence.
Qed.

(** Without a legacy file, a general file whose text is not JSON makes
    [read] throw the error of the JSON reader and leave the world as it
    was: unlike for the legacy file, nothing stands in for the unreadable
    configuration. *)
Theorem read_propagates_parse_failure (API_HOST : string)
    (parseJson : string → option object) (this : StencilConfigManager)
    (inf imf : bool) (w : world) (content : string) :
  files w !! oldConfigPath this = None →
  files w !! configPath this = Some (File content) →
  parseJson content = None →
  read API_HOST parseJson this inf imf w = (Throw (JsonParseError (configPath this)), w).
Proof.
  intros Hold Hcfg Hparse. apply read_general_unreadable; [done|]. right. eauto.
Qed.

(** Reading the project whose general file is not JSON. *)
Lemma read_propagates_parse_failure_witness :
  Scenario.run_read true true Cases.broken_general
  = (Throw (JsonParseError (configPath Scenario.manager)), Cases.broken_general).
Proof.
  apply (read_propagates_parse_failure Scenario.api_host JsonText.parse Scenario.manager
           true true Cases.broken_general "{oops"); vm_compute; reflexivity.
Defined.

(** Without a legacy file [read] writes nothing: it leaves the files and
    the environment as they were, and logs nothing or the one notice of the
    fallback to the default API host. *)
Theorem read_changes_no_file (API_HOST : string)
    (parseJson : string → option object) (this : StencilConfigManager)
    (inf imf : bool) (w : world) :
  files w !! oldConfigPath this = None →
  files (read API_HOST parseJson this inf imf w).2 = files w
  ∧ process_env (read API_HOST parseJson this inf imf w).2 = process_env w
  ∧ (console (read API_HOST parseJson this inf imf w).2 = console w
     ∨ console (read API_HOST parseJson this inf imf w).2
       = console w ++ [ApiHostFallbackNotice]).
Proof.
  intros Hold.
  assert (Hvalidated : ∀ config,
    let w' := ((c ← _validateStencilConfig API_HOST config imf;
                mret (VObj c)) w).2 in
    files w' = files w ∧ process_env w' = process_env w
    ∧ (console w' = console w ∨ console w' = console w ++ [ApiHostFallbackNotice])).
  { intros config. unfold mbind, M_bind, bind. rewrite validate_run.
    repeat case_match; simplify_eq; cbn; auto. }
  destruct (files w !! configPath this) as [[content|]|] eqn:Hcfg.
  - destruct (parseJson content) as [o|] eqn:Hparse.
    + rewrite (read_current API_HOST parseJson this (VObj o)) by (done || right; eauto).
      apply Hvalidated.
    + rewrite (read_general_unreadable API_HOST parseJson this inf imf w
                 (JsonParseError (configPath this))) by (done || right; eauto).
      auto.
  - rewrite (read_general_unreadable API_HOST parseJson this inf imf w
               (EISDIR (configPath this))) by (done || left; eauto).
    auto.
  - rewrite (read_current API_HOST parseJson this VNull) by (done || left; eauto).
    apply Hvalidated.
Qed.

(** Reading the project that has a general file. *)
Lemma read_changes_no_file_witness :
  files Cases.current_project !! oldConfigPath Scenario.manager = None
  ∧ files (Scenario.run_read false false Cases.current_project).2
    = files Cases.current_project
  ∧ console (Scenario.run_read false false Cases.current_project).2
    = [ApiHostFallbackNotice].
Proof.
  split; [reflexivity|].
  destruct (read_changes_no_file Scenario.api_host JsonText.parse Scenario.manager
              false false Cases.current_project eq_refl) as (Hfiles & _ & _).
  split; [exact Hfiles|]. vm_compute. reflexivity.
Defined.

(** Without a legacy file, the configuration that [read] validates is the
    one of the general file with [accessToken] and [githubToken] replaced
    by the fields of the secrets object: a secret that the general file
    carries is overridden by the environment, also by [null]. *)
Theorem read_merges_environment (API_HOST : string)
    (parseJson : string → option object) (this : StencilConfigManager)
    (inf imf : bool) (w : world) (content : string) (o : object) :
  files w !! oldConfigPath this = None →
  files w !! configPath this = Some (File content) →
  parseJson content = Some o →
  NoDup o.*1 →
  ∃ merged,
    (∀ k, get k merged
          = if decide (k = "accessToken")
            then Some (env_or_null (process_env w !! "STENCIL_ACCESS_TOKEN"))
            else if decide (k = "githubToken")
            then Some (env_or_null (process_env w !! "STENCIL_GITHUB_TOKEN"))
            else get k o)
    ∧ read API_HOST parseJson this inf imf w
      = (c ← _validateStencilConfig API_HOST merged imf; mret (VObj c)) w.
Proof.
  intros Hold Hcfg Hparse Hnd.
  eexists. split; [|apply (read_current API_HOST parseJson this (VObj o)); [done|right; eauto]].
  intros k.
  destruct (get_spread_secret (VObj o)
              (env_or_null (process_env w !! "STENCIL_ACCESS_TOKEN"))
              (env_or_null (process_env w !! "STENCIL_GITHUB_TOKEN"))) as [Ha Hg].
  repeat case_decide; subst; [done|done|]. by apply get_spread_general.
Qed.

(** A general file that carries a stale access token, read with a token in
    the environment. *)
Lemma read_merges_environment_witness :
  JsonText.parse Cases.general_text = Some Cases.general_object
  ∧ get "accessToken" Cases.general_object = Some (VStr "stale")
  ∧ ∃ merged,
      get "accessToken" merged = Some (VStr "tok123")
      ∧ get "githubToken" merged = Some VNull
      ∧ get "normalStoreUrl" merged = Some (VStr "http://x")
      ∧ Scenario.run_read false false Cases.current_project
        = (c ← _validateStencilConfig Scenario.api_host merged false;
           mret (VObj c)) Cases.current_project.
Proof.
  assert (Hparse : JsonText.parse Cases.general_text = Some Cases.general_object)
    by (vm_compute; reflexivity).
  split; [exact Hparse|]. split; [reflexivity|].
  destruct (read_merges_environment Scenario.api_host JsonText.parse Scenario.manager
              false false Cases.current_project Cases.general_text Cases.general_object)
    as (merged & Hget & Hread).
  - reflexivity.
  - reflexivity.
  - exact Hparse.
  - apply (bool_decide_unpack _). vm_compute. exact I.
  - exists merged. rewrite !Hget. split_and!; try exact Hread; vm_compute; reflexivity.
Defined.

(** With neither a legacy file nor a general file, [read] validates the
    secrets of the environment alone: with [ignoreMissingFields] it returns
    the two tokens of the environment and the default API host, without it
    it throws the outdated-configuration error, whatever the tokens. *)
Theorem read_tokens_of_environment (API_HOST : string)
    (parseJson : string → option object) (this : StencilConfigManager)
    (inf imf : bool) (w : world) :
  files w !! oldConfigPath this = None →
  files w !! configPath this = None →
  read API_HOST parseJson this inf imf w =
    if imf
    then (Return (VObj [("accessToken",
                         env_or_null (process_env w !! "STENCIL_ACCESS_TOKEN"));
                        ("githubToken",
                         env_or_null (process_env w !! "STENCIL_GITHUB_TOKEN"));
                        ("apiHost", VStr API_HOST)]),
          World (files w) (process_env w) (console w ++ [ApiHostFallbackNotice]))
    else (Throw ConfigOutdated, w).
Proof.
  intros Hold Hcfg.
  rewrite (read_current API_HOST parseJson this VNull inf imf w Hold) by (by left).
  unfold mbind, M_bind, bind. rewrite validate_run.
  by destruct imf.
Qed.

(** A project without files, read with an access token in the
    environment. *)
Lemma read_tokens_of_environment_witness :
  (Scenario.run_read false true Cases.token_only).1
  = Return (VObj [("accessToken", VStr "tok123"); ("githubToken", VNull);
                  ("apiHost", VStr Scenario.api_host)])
  ∧ (Scenario.run_read false false Cases.token_only).1 = Throw ConfigOutdated.
Proof.
  unfold Scenario.run_read.
  rewrite !(read_tokens_of_environment Scenario.api_host JsonText.parse Scenario.manager)
    by reflexivity.
  split; reflexivity.
Defined.

(** Without a legacy file, what [read] answers depends on the general file
    and on the two token variables only: it is the same on two worlds that
    agree on them, whatever their other files, such as the environment file
    that [save] writes. *)
Theorem read_depends_on_general_file_and_tokens (API_HOST : string)
    (parseJson : string → option object) (this : StencilConfigManager)
    (inf imf : bool) (w1 w2 : world) :
  files w1 !! oldConfigPath this = None →
  files w2 !! oldConfigPath this = None →
  files w1 !! configPath this = files w2 !! configPath this →
  process_env w1 !! "STENCIL_ACCESS_TOKEN" = process_env w2 !! "STENCIL_ACCESS_TOKEN" →
  process_env w1 !! "STENCIL_GITHUB_TOKEN" = process_env w2 !! "STENCIL_GITHUB_TOKEN" →
  (read API_HOST parseJson this inf imf w1).1
  = (read API_HOST parseJson this inf imf w2).1.
Proof.
  intros Hold1 Hold2 Hcfg Hat Hgh.
  assert (Hvalidated : ∀ config,
    ((c ← _validateStencilConfig API_HOST config imf; mret (VObj c)) w1).1
    = ((c ← _validateStencilConfig API_HOST config imf; mret (VObj c)) w2).1).
  { intros config. unfold mbind, M_bind, bind. rewrite !validate_run.
    destruct (negb imf && _); [done|]. by destruct (negb (truthy _)). }
  destruct (files w2 !! configPath this) as [[content|]|] eqn:Hcfg2.
  - destruct (parseJson content) as [o|] eqn:Hparse.
    + rewrite !(read_current API_HOST parseJson this (VObj o)) by (done || right; eauto).
      rewrite Hat, Hgh. apply Hvalidated.
    + by rewrite !(read_general_unreadable API_HOST parseJson this inf imf _
                     (JsonParseError (configPath this))) by (done || right; eauto).
  - by rewrite !(read_general_unreadable API_HOST parseJson this inf imf _
                   (EISDIR (configPath this))) by (done || left; eauto).
  - rewrite !(read_current API_HOST parseJson this VNull) by (done || left; eauto).
    rewrite Hat, Hgh. apply Hvalidated.
Qed.

(** The project with a general file, with and without an environment file
    that holds another access token. *)
Lemma read_depends_on_general_file_and_tokens_witness :
  file_text Cases.current_project_with_env_file Scenario.env_file
  = "STENCIL_ACCESS_TOKEN=other"
  ∧ (Scenario.run_read false false Cases.current_project_with_env_file).1
    = (Scenario.run_read false false Cases.current_project).1.
Proof.
  split; [reflexivity|].
  apply (read_depends_on_general_file_and_tokens Scenario.api_host JsonText.parse
           Scenario.manager false false
           Cases.current_project_with_env_file Cases.current_project);
    vm_compute; reflexivity.
Defined.

(** ** Further properties: reading a project with a legacy file *)

(** With a legacy file, and a general path that is not a directory, [read]
    does not return: the migration writes the general file, with the
    non-secret fields of the legacy configuration or with [{}] when the
    legacy file is not JSON, logs its first notice, and throws at the first
    upsert, which has no path.  The legacy file is still there, nothing is
    validated, and [ignoreFileNotExists] and [ignoreMissingFields] play no
    part. *)
Theorem read_with_legacy_file (API_HOST : string)
    (parseJson : string → option object) (themePath eol : string)
    (inf imf : bool) (w : world) (text : string) :
  files w !! oldConfigPath (new themePath eol) = Some (File text) →
  files w !! configPath (new themePath eol) ≠ Some Dir →
  ∃ w',
    read API_HOST parseJson (new themePath eol) inf imf w
    = (Throw ERR_INVALID_ARG_TYPE, w')
    ∧ files w' !! oldConfigPath (new themePath eol) = Some (File text)
    ∧ files w' !! configPath (new themePath eol)
      = Some (File (JSON.stringify
                      (VObj (generalConfig
                               (_splitStencilConfig (new themePath eol)
                                  (default [] (parseJson text)))))))
    ∧ (parseJson text = None →
       files w' !! configPath (new themePath eol) = Some (File "{}"))
    ∧ (∀ q, q ≠ configPath (new themePath eol) → files w' !! q = files w !! q)
    ∧ process_env w' = process_env w
    ∧ console w' = console w ++ [DeprecatedFileNotice].
Proof.
  intros Hold Hcfg.
  rewrite (read_legacy_run _ _ _ _ _ text) by done.
  erewrite bind_Throw by (by apply migrate_run).
  eexists. split; [reflexivity|]. cbn [files process_env console].
  split_and!; try done.
  - rewrite lookup_insert_ne; [done|]. apply not_eq_sym, new_paths_differ.
  - by rewrite lookup_insert_eq.
  - intros ->. by rewrite lookup_insert_eq.
  - intros q Hq. by rewrite lookup_insert_ne.
Qed.

(** Reading the project whose legacy file is not JSON. *)
Lemma read_with_legacy_file_witness :
  JsonText.parse "{oops" = None
  ∧ ∃ w',
      Scenario.run_read true true Cases.broken_legacy = (Throw ERR_INVALID_ARG_TYPE, w')
      ∧ files w' !! oldConfigPath Scenario.manager = Some (File "{oops")
      ∧ files w' !! configPath Scenario.manager = Some (File "{}").
Proof.
  assert (Hparse : JsonText.parse "{oops" = None) by (vm_compute; reflexivity).
  split; [exact Hparse|].
  destruct (read_with_legacy_file Scenario.api_host JsonText.parse "/theme" Scenario.nl
              true true Cases.broken_legacy "{oops")
    as (w' & Hread & Hold & _ & Hcfg & _).
  - reflexivity.
  - vm_compute. discriminate.
  - exists w'. split; [exact Hread|]. split; [exact Hold|]. exact (Hcfg Hparse).
Defined.

(** The migration never completes, whatever the configuration and the
    world: its save has no environment file, so it throws, at the general
    file when that path is a directory and at the first upsert otherwise.
    The legacy file is not deleted and the notice of the replacement is not
    logged. *)
Theorem migration_never_completes (themePath eol : string) (config : object)
    (w : world) :
  ∃ e w',
    _migrateOldConfig (new themePath eol) config w = (Throw e, w')
    ∧ (e = ERR_INVALID_ARG_TYPE ∨ e = EISDIR (configPath (new themePath eol)))
    ∧ files w' !! oldConfigPath (new themePath eol)
      = files w !! oldConfigPath (new themePath eol)
    ∧ process_env w' = process_env w
    ∧ console w' = console w ++ [DeprecatedFileNotice].
Proof.
  destruct (files w !! configPath (new themePath eol)) as [[content|]|] eqn:Hcfg.
  2:{ eexists _, _. split.
      - unfold _migrateOldConfig. erewrite bind_Return by reflexivity. cbv beta.
        by erewrite bind_Throw by (by apply save_undefined_Dir).
      - split; [by right|]. done. }
  all: rewrite migrate_run by (by rewrite Hcfg).
  all: eexists _, _; split; [reflexivity|]; split; [by left|].
  all: cbn [files process_env console]; split; [|done].
  all: rewrite lookup_insert_ne; [done|apply not_eq_sym, new_paths_differ].
Qed.

(** ** Further properties: saving *)

Lemma upsert_Dir (this : StencilConfigManager) key value (p : string) (w : world) :
  files w !! p = Some Dir →
  _setEnvValueToFile this key value (Some p) w = (Throw (EISDIR p), w).
Proof.
  intros Hp. unfold _setEnvValueToFile.
  erewrite bind_Return by apply existsSync_run.
  rewrite Hp, bool_decide_true by eauto. cbn [negb].
  erewrite bind_Return by reflexivity.
  erewrite bind_Throw; [done|]. unfold fs.readFileSync. by rewrite Hp.
Qed.

Lemma touches_only_bind {A B} (paths : list string) (m : M A) (k : A → M B) :
  touches_only paths m → (∀ a, touches_only paths (k a)) →
  touches_only paths (m ≫= k).
Proof.
  intros Hm Hk w. unfold mbind, M_bind, bind.
  destruct (Hm w) as (He & Hc & Hf). destruct (m w) as [[a|e] w1]; [|done].
  destruct (Hk a w1) as (He' & Hc' & Hf'). cbn [snd] in *.
  split_and!; [congruence..|]. intros q Hq. by rewrite Hf', Hf.
Qed.

Lemma touches_only_weaken {A} (paths paths' : list string) (m : M A) :
  paths ⊆ paths' → touches_only paths m → touches_only paths' m.
Proof.
  intros Hsub Hm w. destruct (Hm w) as (He & Hc & Hf).
  split_and!; [done..|]. intros q Hq. apply Hf. intros Hin. by apply Hq, Hsub.
Qed.

Lemma writeFile_touches_only (path : option string) (data : string) :
  touches_only (path_list path) (fs.writeFile path data).
Proof.
  intros w. destruct path as [p|]; [|done]. unfold fs.writeFile.
  destruct (files w !! p) as [[|]|]; cbn [snd files process_env console with_files];
    split_and!; try done.
  all: intros q Hq; rewrite lookup_insert_ne; [done|].
  all: intros ->; apply Hq; left.
Qed.

Lemma upsert_touches_only (this : StencilConfigManager) key value
    (envFile : option string) :
  touches_only (path_list envFile) (_setEnvValueToFile this key value envFile).
Proof.
  intros w. destruct envFile as [p|]; [|by rewrite upsert_undefined].
  destruct (files w !! p) as [[content|]|] eqn:Hp.
  2:{ by rewrite upsert_Dir. }
  all: rewrite upsert_run by (by rewrite Hp).
  all: cbn [snd files process_env console with_files]; split_and!; try done.
  all: intros q Hq; rewrite lookup_insert_ne; [done|].
  all: intros ->; apply Hq; left.
Qed.

(** A save leaves the environment, the console and every file other than
    the general file and the environment file as they were, whether it
    succeeds or throws. *)
Theorem save_touches_only (this : StencilConfigManager) (config : object)
    (envFile : option string) :
  touches_only (configPath this :: path_list envFile) (save this config envFile).
Proof.
  unfold save. apply touches_only_bind.
  - apply (touches_only_weaken (path_list (Some (configPath this)))); [|apply writeFile_touches_only].
    intros q ->%list_elem_of_singleton. left.
  - intros _. apply (touches_only_weaken (path_list envFile)).
    { intros q Hq. by right. }
    apply touches_only_bind; [|intros _]; apply upsert_touches_only.
Qed.

(** After a save, whether or not the upserts succeed, the general file
    holds the serialisation of an object without a secret key: of the
    configuration without its secret fields and without a field named
    [__proto__], when its keys are distinct.  The general path must not be
    a directory nor the environment file. *)
Theorem save_writes_no_secret (this : StencilConfigManager) (config : object)
    (envFile : option string) (w : world) :
  files w !! configPath this ≠ Some Dir →
  envFile ≠ Some (configPath this) →
  ∃ general,
    files (save this config envFile w).2 !! configPath this
    = Some (File (JSON.stringify (VObj general)))
    ∧ Forall (fun k => k ∉ secretFieldsSet this) general.*1
    ∧ (NoDup config.*1 → general = plain_fields_of this config).
Proof.
  intros Hcfg Henv.
  exists (generalConfig (_splitStencilConfig this config)).
  split; [|split; [apply split_separates|intros Hnd; by apply split_keeps_order_parts]].
  unfold save. erewrite bind_Return by (by apply writeFile_run).
  set (w1 := with_files _ w).
  destruct (touches_only_bind (path_list envFile)
              (_setEnvValueToFile this "STENCIL_ACCESS_TOKEN"
                 (get "accessToken" (secretsConfig (_splitStencilConfig this config)))
                 envFile)
              (fun _ => _setEnvValueToFile this "STENCIL_GITHUB_TOKEN"
                 (get "githubToken" (secretsConfig (_splitStencilConfig this config)))
                 envFile)
              (upsert_touches_only _ _ _ _)
              (fun _ => upsert_touches_only _ _ _ _) w1) as (_ & _ & Hframe).
  rewrite Hframe.
  - unfold w1. cbn [files with_files]. by rewrite lookup_insert_eq.
  - destruct envFile as [p|]; [|apply not_elem_of_nil].
    intros Heq%list_elem_of_singleton. apply Henv. by rewrite Heq.
Qed.

(** The save of the store configuration to the environment file of the
    scenario. *)
Lemma save_writes_no_secret_witness :
  ∃ general,
    files (save Scenario.manager Scenario.store_config (Some Scenario.env_file)
             Scenario.bare).2 !! configPath Scenario.manager
    = Some (File (JSON.stringify (VObj general)))
    ∧ get "accessToken" general = None
    ∧ get "githubToken" general = None.
Proof.
  destruct (save_writes_no_secret Scenario.manager Scenario.store_config
              (Some Scenario.env_file) Scenario.bare)
    as (general & Hfile & _ & Hgeneral).
  - vm_compute. discriminate.
  - vm_compute. discriminate.
  - exists general. split; [exact Hfile|].
    rewrite Hgeneral by (apply (bool_decide_unpack _); vm_compute; exact I).
    split; reflexivity.
Defined.

(** A save is not atomic: when the environment file path is a directory,
    the general file is written before the first upsert throws. *)
Theorem save_stops_at_directory (this : StencilConfigManager) (config : object)
    (p : string) (w : world) :
  files w !! configPath this ≠ Some Dir →
  files w !! p = Some Dir →
  save this config (Some p) w
  = (Throw (EISDIR p),
     with_files
       (<[configPath this :=
            File (JSON.stringify
                    (VObj (generalConfig (_splitStencilConfig this config))))]>
          (files w))
       w).
Proof.
  intros Hcfg Hp.
  assert (p ≠ configPath this) by (intros ->; done).
  unfold save. erewrite bind_Return by (by apply writeFile_run).
  erewrite bind_Throw; [done|].
  apply upsert_Dir. cbn [files with_files]. by rewrite lookup_insert_ne.
Qed.

(** A save to an environment file path that is a directory. *)
Lemma save_stops_at_directory_witness :
  (save Scenario.manager Scenario.store_config (Some Scenario.env_file)
     Cases.env_is_directory).1 = Throw (EISDIR Scenario.env_file)
  ∧ JsonText.parse
      (file_text (save Scenario.manager Scenario.store_config (Some Scenario.env_file)
                    Cases.env_is_directory).2 (configPath Scenario.manager))
    = Some [("normalStoreUrl", VStr "http://x"); ("customLayouts", VBool true)].
Proof.
  rewrite (save_stops_at_directory Scenario.manager Scenario.store_config
             Scenario.env_file Cases.env_is_directory).
  - split; vm_compute; reflexivity.
  - vm_compute. discriminate.
  - vm_compute. reflexivity.
Defined.







(** ** Further properties: the upsert and its pattern *)






Lemma starts_with_iff (p s : string) :
  Js.starts_with p s = true ↔ ∃ rest, s = p +:+ rest.
Proof.
  split; [|intros [rest ->]; apply starts_with_app].
  revert s. induction p as [|c p IH]; intros s Hs; [by exists s|].
  destruct s as [|c' s]; [done|]. cbn [Js.starts_with] in Hs.
  case_decide as Hc; [|done]. subst c'. destruct (IH s Hs) as [rest ->].
  by exists rest.
Qed.

Lemma behind_hash_rev_app (before acc : string) :
  behind_hash (String.rev_app before acc) = ends_commented (behind_hash acc) before.
Proof.
  revert acc. induction before as [|c before IH]; intros acc; [done|].
  cbn [String.rev_app ends_commented]. by rewrite IH.
Qed.

Lemma key_pattern_from_iff (key acc s : string) :
  key_pattern_from key acc s = true
  ↔ ∃ before after,
      s = before +:+ (key +:+ "=") +:+ after
      ∧ ends_commented (behind_hash acc) before = false.
Proof.
  revert acc. induction s as [|c s IH]; intros acc; cbn [key_pattern_from].
  - rewrite starts_with_nil by (by destruct key). cbn [andb orb].
    split; [done|]. intros (before & after & Hs & _).
    destruct before; [by destruct key|done].
  - rewrite orb_true_iff, andb_true_iff, negb_true_iff, starts_with_iff, IH.
    split.
    + intros [[[after Hs] Hacc]|(before & after & Hs & Hc)].
      * by exists "", after.
      * exists (String c before), after. by rewrite Hs.
    + intros (before & after & Hs & Hc). destruct before as [|c' before].
      * left. split; [by exists after|done].
      * right. rewrite str_app_cons in Hs. simplify_eq. by exists before, after.
Qed.

(** The pattern of a key matches a line exactly when the line holds the
    key followed by [=] at a place where the text before it does not end
    with a [#] followed by blanks only.  The match is not anchored: the key
    may stand anywhere in the line. *)
Theorem key_pattern_matches_iff (key line : string) :
  key_pattern_matches key line = true
  ↔ ∃ before after,
      line = before +:+ key +:+ "=" +:+ after
      ∧ ends_commented false before = false.
Proof.
  unfold key_pattern_matches. rewrite key_pattern_from_iff.
  split; intros (before & after & Hs & Hc); exists before, after;
    (split; [|done]); by rewrite Hs, ?str_app_assoc.
Qed.

(** ** Further properties: the secrets file *)

Section SecretsFileRuns.

Variable parseJson : string → option object.
Variable this : StencilConfigManager.

Lemma parse_if_exists_file (path content : string) (o : object)
    (otherwise : M value) (w : world) :
  files w !! path = Some (File content) → parseJson content = Some o →
  parse_if_exists parseJson path otherwise w = (Return (VObj o), w).
Proof.
  intros Hp Ho. unfold parse_if_exists.
  erewrite bind_Return by apply existsSync_run.
  rewrite Hp, bool_decide_true by eauto.
  by erewrite bind_Return by (by eapply parseJsonFile_run).
Qed.

Lemma parse_if_exists_missing (path : string) (otherwise : M value) (w : world) :
  files w !! path = None →
  parse_if_exists parseJson path otherwise w = otherwise w.
Proof.
  intros Hp. unfold parse_if_exists.
  erewrite bind_Return by apply existsSync_run.
  by rewrite Hp, bool_decide_false by (by intros [? ?]).
Qed.

End SecretsFileRuns.

(** When the general configuration names a secrets file that exists and
    holds JSON, [_getSecretsConfig] answers its object and changes nothing,
    whether or not the default secrets file exists. *)
Theorem getSecretsConfig_named_file (parseJson : string → option object)
    (this : StencilConfigManager) (generalConfig : value) (name content : string)
    (o : object) (w : world) :
  prop "secretsFileName" generalConfig = Some (VStr name) →
  name ≠ "" →
  files w !! path_join (themePath this) name = Some (File content) →
  parseJson content = Some o →
  _getSecretsConfig parseJson this generalConfig w = (Return (VObj o), w).
Proof.
  intros Hname Hne Hfile Hparse. unfold _getSecretsConfig.
  destruct generalConfig as [| | | | |fields]; try done.
  rewrite Hname. cbn [truthy andb]. rewrite bool_decide_false by done. cbn [negb].
  by eapply parse_if_exists_file.
Qed.

(** A project with both secrets files. *)
Lemma getSecretsConfig_named_file_witness :
  _getSecretsConfig JsonText.parse Scenario.manager Cases.named_secrets
    Cases.both_secrets_files
  = (Return (VObj [("accessToken", VStr "named")]), Cases.both_secrets_files).
Proof.
  apply (getSecretsConfig_named_file JsonText.parse Scenario.manager Cases.named_secrets
           "my.secrets.json" (Cases.secrets_text "named")).
  - reflexivity.
  - discriminate.
  - vm_compute. reflexivity.
  - vm_compute. reflexivity.
Defined.

(** When the general configuration is [null], names no secrets file or
    names one that does not exist, [_getSecretsConfig] falls back on the
    default secrets file: it answers [null] when that file does not exist
    either, and its object when it exists and holds JSON; it changes
    nothing. *)
Theorem getSecretsConfig_default_file (parseJson : string → option object)
    (this : StencilConfigManager) (generalConfig : value) (w : world) :
  (truthy (Some generalConfig) && truthy (prop "secretsFileName" generalConfig) = false
   ∨ ∃ name, prop "secretsFileName" generalConfig = Some (VStr name)
             ∧ files w !! path_join (themePath this) name = None) →
  (files w !! secretsPath this = None →
   _getSecretsConfig parseJson this generalConfig w = (Return VNull, w))
  ∧ (∀ content o,
       files w !! secretsPath this = Some (File content) →
       parseJson content = Some o →
       _getSecretsConfig parseJson this generalConfig w = (Return (VObj o), w)).
Proof.
  intros Hnamed.
  assert (Hfallback :
    _getSecretsConfig parseJson this generalConfig w
    = parse_if_exists parseJson (secretsPath this) (mret VNull) w).
  { unfold _getSecretsConfig. destruct Hnamed as [-> | (name & Hname & Hfile)]; [done|].
    rewrite Hname. destruct (truthy (Some generalConfig) && _); [|done].
    by apply parse_if_exists_missing. }
  rewrite Hfallback. split.
  - intros Hdefault. by rewrite parse_if_exists_missing.
  - intros content o Hdefault Hparse. by eapply parse_if_exists_file.
Qed.

(** A project with the default secrets file only, and one without any. *)
Lemma getSecretsConfig_default_file_witness :
  _getSecretsConfig JsonText.parse Scenario.manager Cases.named_secrets
    Cases.default_secrets_file
  = (Return (VObj [("accessToken", VStr "default")]), Cases.default_secrets_file)
  ∧ _getSecretsConfig JsonText.parse Scenario.manager VNull Scenario.bare
    = (Return VNull, Scenario.bare).
Proof.
  split.
  - apply (getSecretsConfig_default_file JsonText.parse Scenario.manager
             Cases.named_secrets Cases.default_secrets_file)
      with (content := Cases.secrets_text "default").
    + right. exists "my.secrets.json". split; vm_compute; reflexivity.
    + vm_compute. reflexivity.
    + vm_compute. reflexivity.
  - apply (getSecretsConfig_default_file JsonText.parse Scenario.manager VNull
             Scenario.bare).
    + left. reflexivity.
    + reflexivity.
Defined.
